(** * The heterogeneous data-source gateway (MCP/cdata-server/src/index.ts)

    A shallow embedding of the [CDataMCPServer] class: the descriptor
    registry ([this.dataSources], a [Map<string, DataSource>]), the four
    connectors ([querySql], [fetchApiData], [readCsv], [readJson]) and the
    transform stub ([transformData]).

    The class methods are [async]: each returns a promise, modelled by its
    [Outcome] (resolved, rejected, or never settled).  The JavaScript
    runtime and the libraries the class calls ([fs], [JSON.parse],
    [csv-parser], [sqlite3], [axios]) are not part of the repository; what
    they answer is supplied by a [Host] record, and the way Node delivers
    stream events is written out next to the handlers that consume them. *)

From Stdlib Require Import ZArith String Ascii List Bool Lia.
From stdpp Require Import strings gmap pretty.

Local Set Warnings "-register-all".
Local Open Scope string_scope.
Local Open Scope Z_scope.

(** ** JavaScript values

    [config], [filter], [params], [body], CSV rows and parsed JSON documents
    are all typed [any] in the source.  Numbers are restricted to integers
    (the gateway computes with no number but [records.length], [limit] and
    a parsed index); [JFunction] stands for the
    built-in members a value inherits from its prototype.  An object is the
    list of its own enumerable properties in enumeration order. *)

Inductive JsVal : Type :=
| JUndefined
| JNull
| JBool (b : bool)
| JNum (n : Z)
| JStr (s : string)
| JArr (items : list JsVal)
| JObj (props : list (string * JsVal))
| JFunction (name : string).

Module Js.

(** [!!v] *)
Definition truthy (v : JsVal) : bool :=
  match v with
  | JUndefined | JNull => false
  | JBool b => b
  | JNum n => negb (n =? 0)
  | JStr s => negb (String.eqb s "")
  | JArr _ | JObj _ | JFunction _ => true
  end.

Definition is_nullish (v : JsVal) : bool :=
  match v with
  | JUndefined | JNull => true
  | _ => false
  end.

(** [a === b].  Arrays, objects and functions compare by reference; the
    two operands of every [===] in the source come from different places
    (a parsed row and the caller's arguments), so they are never the same
    reference. *)
Definition strict_eq (a b : JsVal) : bool :=
  match a, b with
  | JUndefined, JUndefined => true
  | JNull, JNull => true
  | JBool x, JBool y => Bool.eqb x y
  | JNum x, JNum y => x =? y
  | JStr x, JStr y => String.eqb x y
  | _, _ => false
  end.

(** The decimal text of an integer, as [String(n)] gives it for every
    integer of magnitude below 10^21 that a double holds exactly. *)
Definition num_to_string (n : Z) : string := pretty n.

Fixpoint join (sep : string) (l : list string) : string :=
  match l with
  | [] => ""
  | [x] => x
  | x :: rest => x +:+ sep +:+ join sep rest
  end.

(** [String(v)], as a template literal [`${v}`] computes it. *)
Fixpoint to_string (v : JsVal) : string :=
  match v with
  | JUndefined => "undefined"
  | JNull => "null"
  | JBool true => "true"
  | JBool false => "false"
  | JNum n => num_to_string n
  | JStr s => s
  | JArr items =>
      join "," (List.map (fun x => if is_nullish x then "" else to_string x) items)
  | JObj _ => "[object Object]"
  | JFunction name => "function " +:+ name +:+ "() { [native code] }"
  end.

(** *** String primitives used by [readJson] *)

(** [s.includes(c)] for a one-character [c] *)
Fixpoint includes (c : ascii) (s : string) : bool :=
  match s with
  | EmptyString => false
  | String a rest => Ascii.eqb a c || includes c rest
  end.

(** [s.split(c)] for a one-character separator: never empty *)
Fixpoint split (c : ascii) (s : string) : list string :=
  match s with
  | EmptyString => [""]
  | String a rest =>
      if Ascii.eqb a c then "" :: split c rest
      else match split c rest with
           | [] => [String a ""]
           | p :: ps => String a p :: ps
           end
  end.

(** [s.replace(c, '')]: the first occurrence only *)
Fixpoint remove_first (c : ascii) (s : string) : string :=
  match s with
  | EmptyString => ""
  | String a rest => if Ascii.eqb a c then rest else String a (remove_first c rest)
  end.

(** [s.replace(/^\$\./, '')] *)
Definition strip_root (s : string) : string :=
  match s with
  | String "$" (String "." rest) => rest
  | _ => s
  end.

Definition digit_val (radix : Z) (c : ascii) : option Z :=
  let n := Z.of_nat (nat_of_ascii c) in
  let d := if (48 <=? n) && (n <=? 57) then Some (n - 48)
           else if (97 <=? n) && (n <=? 122) then Some (n - 87)
           else if (65 <=? n) && (n <=? 90) then Some (n - 55)
           else None in
  match d with
  | Some v => if v <? radix then Some v else None
  | None => None
  end.

(** The longest prefix of digits; [None] when there is none. *)
Fixpoint parse_digits (radix : Z) (s : string) (acc : option Z) : option Z :=
  match s with
  | EmptyString => acc
  | String c rest =>
      match digit_val radix c with
      | Some d => parse_digits radix rest (Some (radix * default 0 acc + d))
      | None => acc
      end
  end.

(** White space [parseInt] skips (the one-byte characters of it). *)
Definition is_space (c : ascii) : bool :=
  let n := nat_of_ascii c in
  (Nat.eqb n 32 || Nat.eqb n 9 || Nat.eqb n 10 || Nat.eqb n 11
   || Nat.eqb n 12 || Nat.eqb n 13)%bool.

Fixpoint skip_spaces (s : string) : string :=
  match s with
  | String c rest => if is_space c then skip_spaces rest else s
  | EmptyString => ""
  end.

(** [parseInt(s)] without a radix; [None] is [NaN].  The result is the
    exact integer, which is the number JavaScript computes as long as its
    magnitude is below 2^53; above, JavaScript rounds to the nearest
    double and the model does not follow it. *)
Definition parseInt (s : string) : option Z :=
  let s := skip_spaces s in
  let '(neg, s) :=
    match s with
    | String "-" rest => (true, rest)
    | String "+" rest => (false, rest)
    | _ => (false, s)
    end in
  let '(radix, s) :=
    match s with
    | String "0" (String "x" rest) => (16, rest)
    | String "0" (String "X" rest) => (16, rest)
    | _ => (10, s)
    end in
  match parse_digits radix s None with
  | Some n => Some (if neg then - n else n)
  | None => None
  end.

(** The property key a number is converted to in [o[idx]] *)
Definition number_key (idx : option Z) : string :=
  match idx with
  | Some n => num_to_string n
  | None => "NaN"
  end.

(** A key is an array index when it is the canonical decimal form of a
    natural number. *)
Definition array_index (key : string) : option nat :=
  match parse_digits 10 key None with
  | Some n => if String.eqb (num_to_string n) key then Some (Z.to_nat n) else None
  | None => None
  end.

Fixpoint assoc (key : string) (props : list (string * JsVal)) : option JsVal :=
  match props with
  | [] => None
  | (k, v) :: rest => if String.eqb k key then Some v else assoc key rest
  end.

Definition char_at (s : string) (i : nat) : option JsVal :=
  match String.get i s with
  | Some c => Some (JStr (String c ""))
  | None => None
  end.

(** The own property [key] of [v], when it has one. *)
Definition own_property (v : JsVal) (key : string) : option JsVal :=
  match v with
  | JObj props => assoc key props
  | JArr items =>
      if String.eqb key "length" then Some (JNum (Z.of_nat (length items)))
      else match array_index key with
           | Some i => nth_error items i
           | None => None
           end
  | JStr s =>
      if String.eqb key "length" then Some (JNum (Z.of_nat (String.length s)))
      else match array_index key with
           | Some i => char_at s i
           | None => None
           end
  | _ => None
  end.

Fixpoint indexed {A} (i : nat) (l : list A) : list (string * A) :=
  match l with
  | [] => []
  | x :: rest => (pretty i, x) :: indexed (S i) rest
  end.

Definition chars (s : string) : list JsVal :=
  List.map (fun c => JStr (String c "")) (list_ascii_of_string s).

(** [Object.entries(v)] for a non-nullish [v] *)
Definition entries (v : JsVal) : list (string * JsVal) :=
  match v with
  | JObj props => props
  | JArr items => indexed 0 items
  | JStr s => indexed 0 (chars s)
  | _ => []
  end.

End Js.

(** ** Errors and promise outcomes

    Every [throw] of the source is one constructor; [message] is the text
    of the [Error] it builds.  [TypeError], [FsError] and [SyntaxError] are
    raised by the runtime ([undefined.x], [fs.readFileSync], [JSON.parse]),
    not by a [throw] of the class. *)

Inductive Error : Type :=
| AlreadyExists (name : string)
| PathRequired (type : string)
| FileNotFound (path : JsVal)
| UrlRequired
| SourceNotFound (name : string)
| NotSqlite (name : string)
| NotApi (name : string)
| NotCsv (name : string)
| NotJson (name : string)
| OpenFailed (msg : string)
| QueryFailed (msg : string)
| ApiRequestFailed (msg : string)
| CsvReadFailed (msg : string)
| TypeError (msg : string)
| FsError (msg : string)
| SyntaxError (msg : string).

Definition message (e : Error) : string :=
  match e with
  | AlreadyExists name => "Data source '" +:+ name +:+ "' already exists"
  | PathRequired type => "'path' is required for " +:+ type +:+ " data sources"
  | FileNotFound path => "File not found: " +:+ Js.to_string path
  | UrlRequired => "'url' is required for API data sources"
  | SourceNotFound name => "Data source '" +:+ name +:+ "' not found"
  | NotSqlite name => "Data source '" +:+ name +:+ "' is not a SQLite database"
  | NotApi name => "Data source '" +:+ name +:+ "' is not an API"
  | NotCsv name => "Data source '" +:+ name +:+ "' is not a CSV file"
  | NotJson name => "Data source '" +:+ name +:+ "' is not a JSON file"
  | OpenFailed msg => "Failed to open database: " +:+ msg
  | QueryFailed msg => "Query failed: " +:+ msg
  | ApiRequestFailed msg => "API request failed: " +:+ msg
  | CsvReadFailed msg => "Failed to read CSV: " +:+ msg
  | TypeError msg | FsError msg | SyntaxError msg => msg
  end.

(** The error taxonomy of the specification, read off the throw sites. *)
Inductive ErrorClass : Type :=
| DuplicateNameError
| InvalidConfigError
| NotFoundError
| KindMismatchError
| ConnectorError
| RuntimeError.

Definition error_class (e : Error) : ErrorClass :=
  match e with
  | AlreadyExists _ => DuplicateNameError
  | PathRequired _ | FileNotFound _ | UrlRequired => InvalidConfigError
  | SourceNotFound _ => NotFoundError
  | NotSqlite _ | NotApi _ | NotCsv _ | NotJson _ => KindMismatchError
  | OpenFailed _ | QueryFailed _ | ApiRequestFailed _ | CsvReadFailed _ =>
      ConnectorError
  | TypeError _ | FsError _ | SyntaxError _ => RuntimeError
  end.

(** What becomes of the promise an [async] method returns.  [Pending]: no
    [resolve] or [reject] is ever called. *)
Inductive Outcome (A : Type) : Type :=
| Resolved (a : A)
| Rejected (e : Error)
| Pending.

Arguments Resolved {A} a.
Arguments Rejected {A} e.
Arguments Pending {A}.

Definition obind {A B} (o : Outcome A) (k : A -> Outcome B) : Outcome B :=
  match o with
  | Resolved a => k a
  | Rejected e => Rejected e
  | Pending => Pending
  end.

Notation "'check' x <- c ; k" := (obind c (fun x => k))
  (at level 60, x name, c at next level, right associativity, only parsing).

(** ** The host: what the runtime and the libraries answer

    A library call answers [inl] of its value or [inr] of the message of the
    error it reports. *)

Definition Row : Type := list (string * JsVal).

(** What can go wrong while a CSV file is streamed: the parser emits
    ['error'], or the file stream does (the file cannot be opened or
    read). *)
Inductive StreamFailure : Type :=
| ParserError (msg : string)
| FileError (msg : string).

(** A CSV file as [fs.createReadStream(path).pipe(csvParser())] sees it: the
    file arrives in chunks; the parser emits, inside the call that hands it
    a chunk, one ['data'] event per row completed by that chunk.  After the
    chunks either a [failure] occurs, or the file ends and the parser, when
    it is ended, emits a last line that had no newline ([tail]). *)
Record Feed : Type :=
  { chunks : list (list Row); tail : list Row;
    failure : option StreamFailure }.

(** One [new sqlite3.Database(path, cb)] followed by [db.all(query, [], cb)].
    When the open fails the driver may or may not call the queued [db.all]
    callback; [queued] is the error it passes if it does. *)
Inductive SqliteRun : Type :=
| OpenFails (msg : string) (queued : option string)
| OpenOk (result : list Row + string).

Module Request.
Record t : Type :=
  { method : string; url : string; headers : JsVal;
    params : option JsVal; data : option JsVal }.
End Request.

Module Response.
Record t : Type := { status : Z; headers : JsVal; data : JsVal }.
End Response.

(** The [error] an [axios] call throws: [error.response?.statusText] and
    [error.message]. *)
Record AxiosError : Type := { statusText : JsVal; axios_message : JsVal }.

Record Host : Type :=
  { inherited : JsVal -> string -> option JsVal;
    existsSync : JsVal -> bool;
    readFileSync : JsVal -> string + string;
    JSON_parse : string -> JsVal + string;
    createReadStream : JsVal -> Feed;
    sqlite3 : JsVal -> string -> SqliteRun;
    axios : Request.t -> Response.t + AxiosError }.

(** ** Data of the gateway *)

Module DataSource.
Record t : Type := { type : string; name : string; config : JsVal }.
End DataSource.

(** [this.dataSources] *)
Abbreviation Registry := (gmap string DataSource.t).

Module Registered.
Record t : Type :=
  { success : bool; message : string; dataSource : DataSource.t }.
End Registered.

Module Rows.
Record t : Type := { success : bool; rowCount : nat; data : list Row }.
End Rows.

Module ApiResult.
Record t : Type :=
  { success : bool; status : Z; headers : JsVal; data : JsVal }.
End ApiResult.

Module JsonResult.
Record t : Type := { success : bool; data : JsVal }.
End JsonResult.

Module Ack.
Record t : Type :=
  { success : bool; message : string; operation : string;
    field : option string; note : string }.
End Ack.

(** What [querySql] does, in order: the calls it makes on the driver and on
    the [resolve]/[reject] of its promise. *)
Inductive DbEvent : Type :=
| EvOpen (path : JsVal)
| EvAll (query : string)
| EvClose
| EvResolve (r : Rows.t)
| EvReject (e : Error).

(** The state the ['data'] handler of [readCsv] works on: the [records]
    array, and whether [stream.destroy()] has been called. *)
Module CsvState.
Record t : Type := { records : list Row; destroyed : bool }.
End CsvState.

(** A method body: it reads and writes [this.dataSources] and ends in the
    outcome of its promise. *)
Definition M (A : Type) : Type := Registry -> Outcome A * Registry.

Definition ret {A} (a : A) : M A := fun reg => (Resolved a, reg).
Definition throw {A} (e : Error) : M A := fun reg => (Rejected e, reg).
Definition settle {A} (o : Outcome A) : M A := fun reg => (o, reg).

Definition bind {A B} (m : M A) (k : A -> M B) : M B :=
  fun reg =>
    match m reg with
    | (Resolved a, reg') => k a reg'
    | (Rejected e, reg') => (Rejected e, reg')
    | (Pending, reg') => (Pending, reg')
    end.

Notation "'do' x <- c ; k" := (bind c (fun x => k))
  (at level 60, x name, c at next level, right associativity, only parsing).

(** [this.dataSources.has(name)] *)
Definition has (name : string) : M bool :=
  fun reg => (Resolved (bool_decide (is_Some (reg !! name))), reg).

(** [this.dataSources.get(name)] *)
Definition lookup_source (name : string) : M (option DataSource.t) :=
  fun reg => (Resolved (reg !! name), reg).

(** [this.dataSources.set(name, dataSource)] *)
Definition set_source (name : string) (ds : DataSource.t) : M unit :=
  fun reg => (Resolved tt, <[name := ds]> reg).

Definition file_backed (type : string) : bool :=
  String.eqb type "sqlite" || String.eqb type "csv" || String.eqb type "json".

Definition rows_result (rows : list Row) : Rows.t :=
  {| Rows.success := true; Rows.rowCount := length rows; Rows.data := rows |}.

(** A promise keeps the first [resolve] or [reject]; later ones are
    ignored. *)
Fixpoint settled (events : list DbEvent) : Outcome Rows.t :=
  match events with
  | [] => Pending
  | EvResolve r :: _ => Resolved r
  | EvReject e :: _ => Rejected e
  | _ :: rest => settled rest
  end.

(** [true] when [db.close] is called before the promise is settled. *)
Fixpoint closed_before_settled (events : list DbEvent) : bool :=
  match events with
  | [] => false
  | EvClose :: _ => true
  | EvResolve _ :: _ | EvReject _ :: _ => false
  | _ :: rest => closed_before_settled rest
  end.

(** [limit && n >= limit] *)
Definition limit_reached (limit : option Z) (n : nat) : bool :=
  match limit with
  | Some l => negb (l =? 0) && (l <=? Z.of_nat n)
  | None => false
  end.

(** [transformData] touches nothing but the registry. *)
Definition transformData (sourceName operation : string)
    (field : option string) : M Ack.t :=
  do dataSource <- lookup_source sourceName;
  match dataSource with
  | None => throw (SourceNotFound sourceName)
  | Some _ =>
      ret {| Ack.success := true;
             Ack.message :=
               "Transformation '" +:+ operation
               +:+ "' would be applied to data source '" +:+ sourceName +:+ "'";
             Ack.operation := operation;
             Ack.field := field;
             Ack.note :=
               "This is a demo - full implementation would require fetching and processing actual data" |}
  end.

Section Gateway.
Context (h : Host).

(** [v[key]] on a value that is neither [undefined] nor [null]: the own
    property, else the member inherited from the prototype, else
    [undefined]. *)
Definition member (v : JsVal) (key : string) : JsVal :=
  match Js.own_property v key with
  | Some x => x
  | None => default JUndefined (inherited h v key)
  end.

(** [v[key]] *)
Definition get (v : JsVal) (key : string) : Outcome JsVal :=
  if Js.is_nullish v then
    Rejected (TypeError ("Cannot read properties of " +:+ Js.to_string v
                         +:+ " (reading '" +:+ key +:+ "')"))
  else Resolved (member v key).

(** [Object.values(v)] *)
Definition values (v : JsVal) : Outcome (list JsVal) :=
  if Js.is_nullish v then
    Rejected (TypeError "Cannot convert undefined or null to object")
  else Resolved (List.map snd (Js.entries v)).

(** *** Registration *)

(** The [switch (type)] of [registerDataSource]: no [default] case. *)
Definition validate (type : string) (config : JsVal) : Outcome unit :=
  if file_backed type then
    check path <- get config "path";
    if negb (Js.truthy path) then Rejected (PathRequired type)
    else if negb (existsSync h path) then Rejected (FileNotFound path)
    else Resolved tt
  else if String.eqb type "api" then
    check url <- get config "url";
    if negb (Js.truthy url) then Rejected UrlRequired
    else Resolved tt
  else Resolved tt.

Definition registerDataSource (name type : string) (config : JsVal)
  : M Registered.t :=
  do taken <- has name;
  if taken then throw (AlreadyExists name)
  else
    let dataSource :=
      {| DataSource.type := type; DataSource.name := name;
         DataSource.config := config |} in
    do _ <- settle (validate type config);
    do _ <- set_source name dataSource;
    ret {| Registered.success := true;
           Registered.message :=
             "Data source '" +:+ name +:+ "' registered successfully";
           Registered.dataSource := dataSource |}.

(** The lookup and kind test every connector starts with. *)
Definition resolve (sourceName : string) (type : string)
    (mismatch : string -> Error) : M DataSource.t :=
  do found <- lookup_source sourceName;
  match found with
  | None => throw (SourceNotFound sourceName)
  | Some dataSource =>
      if negb (String.eqb (DataSource.type dataSource) type)
      then throw (mismatch sourceName)
      else ret dataSource
  end.

(** *** Relational connector *)

(** The callbacks of [querySql], in the order the driver runs them.  The
    constructor call and [db.all] come first: [db.all] only queues the
    statement.  What [db.close] itself reports is logged or dropped and is
    left out. *)
Definition querySql_events (path : JsVal) (query : string) : list DbEvent :=
  [EvOpen path; EvAll query] ++
  match sqlite3 h path query return list DbEvent with
  | OpenFails msg queued =>
      EvReject (OpenFailed msg) ::
      match queued with
      | Some msg' => [EvClose; EvReject (QueryFailed msg')]
      | None => []
      end
  | OpenOk (inr msg) => [EvClose; EvReject (QueryFailed msg)]
  | OpenOk (inl rows) => [EvClose; EvResolve (rows_result rows)]
  end.

Definition querySql (sourceName query : string) : M Rows.t :=
  do dataSource <- resolve sourceName "sqlite" NotSqlite;
  do path <- settle (get (DataSource.config dataSource) "path");
  settle (settled (querySql_events path query)).

(** *** Remote API connector *)

(** The [config] object handed to [axios]. *)
Definition api_request (dataSource : DataSource.t) (endpoint method : string)
    (params body : JsVal) : Outcome Request.t :=
  check base <- get (DataSource.config dataSource) "url";
  let url := Js.to_string base +:+ endpoint in
  check headers <- get (DataSource.config dataSource) "headers";
  Resolved
    {| Request.method := method;
       Request.url := url;
       Request.headers := if Js.truthy headers then headers else JObj [];
       Request.params := if Js.truthy params then Some params else None;
       Request.data :=
         if Js.truthy body
            && (String.eqb method "POST" || String.eqb method "PUT")
         then Some body else None |}.

Definition call_axios (request : Request.t) : Outcome ApiResult.t :=
  match axios h request with
  | inl response =>
      Resolved {| ApiResult.success := true;
                  ApiResult.status := Response.status response;
                  ApiResult.headers := Response.headers response;
                  ApiResult.data := Response.data response |}
  | inr error =>
      let text := if Js.truthy (statusText error) then statusText error
                  else axios_message error in
      Rejected (ApiRequestFailed (Js.to_string text))
  end.

Definition fetchApiData (sourceName endpoint method : string)
    (params body : JsVal) : M ApiResult.t :=
  do dataSource <- resolve sourceName "api" NotApi;
  do request <- settle (api_request dataSource endpoint method params body);
  settle (call_axios request).

(** *** Delimited-file connector *)

(** [Object.entries(filter).every(([key, value]) => row[key] === value)] *)
Definition matches (filter : JsVal) (row : Row) : bool :=
  forallb (fun entry => Js.strict_eq (member (JObj row) (fst entry)) (snd entry))
          (Js.entries filter).

(** Whether the handler pushes [row] onto [records]. *)
Definition keeps (filter : JsVal) (row : Row) : bool :=
  if Js.truthy filter then matches filter row else true.

(** The ['data'] handler. *)
Definition on_data (filter : JsVal) (limit : option Z)
    (st : CsvState.t) (row : Row) : CsvState.t :=
  let records :=
    if keeps filter row then (CsvState.records st ++ [row])%list
    else CsvState.records st in
  {| CsvState.records := records;
     CsvState.destroyed :=
       CsvState.destroyed st || limit_reached limit (length records) |}.

(** The file stream hands over chunk after chunk until it is destroyed.  A
    chunk already handed to the parser is parsed to its end: every row of
    it reaches the handler, also after [stream.destroy()]. *)
Fixpoint pump (filter : JsVal) (limit : option Z)
    (chunks : list (list Row)) (st : CsvState.t) : CsvState.t :=
  match chunks with
  | [] => st
  | chunk :: rest =>
      if CsvState.destroyed st then st
      else pump filter limit rest (fold_left (on_data filter limit) chunk st)
  end.

(** A destroyed file stream emits ['close'], never ['end'], so [pipe] does
    not end the parser and the parser's ['end'] handler, the only place
    that resolves, does not run.  Otherwise, unless a failure occurs, the
    stream ends, the parser is ended, emits its [tail] rows and then
    ['end'].  The second component says whether ['end'] was emitted. *)
Definition run_stream (filter : JsVal) (limit : option Z) (feed : Feed)
  : CsvState.t * bool :=
  let st := pump filter limit (chunks feed)
              {| CsvState.records := []; CsvState.destroyed := false |} in
  if CsvState.destroyed st then (st, false)
  else match failure feed with
       | Some _ => (st, false)
       | None => (fold_left (on_data filter limit) (tail feed) st, true)
       end.

(** The ['error'] handler is attached to the parser: an error of the parser
    rejects the promise.  The file stream has no ['error'] handler: its
    error is an uncaught exception that ends the process, and the promise
    is never settled. *)
Definition read_stream (filter : JsVal) (limit : option Z) (feed : Feed)
  : Outcome Rows.t :=
  let (st, ended) := run_stream filter limit feed in
  if ended then Resolved (rows_result (CsvState.records st))
  else if CsvState.destroyed st then Pending
  else match failure feed with
       | Some (ParserError msg) => Rejected (CsvReadFailed msg)
       | _ => Pending
       end.

Definition readCsv (sourceName : string) (filter : JsVal) (limit : option Z)
  : M Rows.t :=
  do dataSource <- resolve sourceName "csv" NotCsv;
  do path <- settle (get (DataSource.config dataSource) "path");
  settle (read_stream filter limit (createReadStream h path)).

(** *** Structured-document connector *)

(** One iteration of [for (const part of pathParts)]. *)
Definition eval_part (result : JsVal) (part : string) : Outcome JsVal :=
  if Js.includes "[" part && Js.includes "]" part then
    match Js.split "[" part with
    | field :: index :: _ =>
        let idx := Js.parseInt (Js.remove_first "]" index) in
        check inner <- get result field;
        get inner (Js.number_key idx)
    | _ => Rejected (TypeError "Cannot read properties of undefined (reading 'replace')")
    end
  else if String.eqb part "*" then
    match result with
    | JArr _ => Resolved result
    | _ => check vs <- values result; Resolved (JArr vs)
    end
  else get result part.

Fixpoint eval_parts (parts : list string) (result : JsVal) : Outcome JsVal :=
  match parts with
  | [] => Resolved result
  | part :: rest => check next <- eval_part result part; eval_parts rest next
  end.

(** [if (jsonPath) { ... }]: an absent or empty path leaves the document. *)
Definition eval_path (jsonPath : option string) (data : JsVal) : Outcome JsVal :=
  match jsonPath with
  | None => Resolved data
  | Some p =>
      if String.eqb p "" then Resolved data
      else eval_parts (Js.split "." (Js.strip_root p)) data
  end.

Definition load_json (path : JsVal) : Outcome JsVal :=
  match readFileSync h path with
  | inr msg => Rejected (FsError msg)
  | inl fileContent =>
      match JSON_parse h fileContent with
      | inr msg => Rejected (SyntaxError msg)
      | inl data => Resolved data
      end
  end.

Definition readJson (sourceName : string) (jsonPath : option string)
  : M JsonResult.t :=
  do dataSource <- resolve sourceName "json" NotJson;
  do path <- settle (get (DataSource.config dataSource) "path");
  do data <- settle (load_json path);
  do result <- settle (eval_path jsonPath data);
  ret {| JsonResult.success := true; JsonResult.data := result |}.

End Gateway.

(** ** Vocabulary of the properties *)

(** A path segment that is a plain field name: no dot, not an index
    access, not the wildcard. *)
Definition plain_field (part : string) : bool :=
  negb (Js.includes "." part)
  && negb (Js.includes "[" part && Js.includes "]" part)
  && negb (String.eqb part "*").

(** Every row of a CSV file, in file order. *)
Definition all_rows (feed : Feed) : list Row :=
  (concat (chunks feed) ++ tail feed)%list.

(** The kind-specific precondition of a registration fails: the path is
    absent or names no existing file (file-backed kinds), or the url is
    absent (api). *)
Definition precondition_violated (h : Host) (type : string) (config : JsVal)
  : Prop :=
  (file_backed type = true
   /\ (member h config "path" = JUndefined
       \/ existsSync h (member h config "path") = false))
  \/ (type = "api" /\ member h config "url" = JUndefined).

(** The acknowledgement [transformData] answers with. *)
Definition acknowledgement (sourceName operation : string)
    (field : option string) : Ack.t :=
  {| Ack.success := true;
     Ack.message :=
       "Transformation '" +:+ operation
       +:+ "' would be applied to data source '" +:+ sourceName +:+ "'";
     Ack.operation := operation;
     Ack.field := field;
     Ack.note :=
       "This is a demo - full implementation would require fetching and processing actual data" |}.

(** A limit that is never reached: absent, or [0]. *)
Definition quiet (limit : option Z) : Prop :=
  forall n, limit_reached limit n = false.


(** ** A concrete host and registry

    Used to run the gateway on explicit inputs. *)

Definition quoted (s : string) : string :=
  String (ascii_of_nat 34) s +:+ String (ascii_of_nat 34) "".

(** The text [{"a":{"b":[10,20]}}] and the document it parses to. *)
Definition sample_text : string :=
  "{" +:+ quoted "a" +:+ ":{" +:+ quoted "b" +:+ ":[10,20]}}".

Definition sample_doc : JsVal :=
  JObj [("a", JObj [("b", JArr [JNum 10; JNum 20])])].

Definition ann : Row := [("name", JStr "Ann"); ("city", JStr "Oslo")].
Definition bob : Row := [("name", JStr "Bob"); ("city", JStr "Rome")].
Definition cyd : Row := [("name", JStr "Cyd"); ("city", JStr "Oslo")].

Definition demo_host : Host :=
  {| inherited := fun v key =>
       match v with
       | JObj _ =>
           if String.eqb key "toString" then Some (JFunction "toString")
           else None
       | _ => None
       end;
     existsSync := fun p =>
       match p with
       | JStr s =>
           String.eqb s "/data/doc.json" || String.eqb s "/data/people.csv"
           || String.eqb s "/data/shop.db" || String.eqb s "/data/lost.db"
       | _ => false
       end;
     readFileSync := fun p =>
       match p with
       | JStr s =>
           if String.eqb s "/data/doc.json" then inl sample_text
           else inr "ENOENT: no such file or directory"
       | _ => inr "The path argument must be of type string"
       end;
     JSON_parse := fun text =>
       if String.eqb text sample_text then inl sample_doc
       else inr "Unexpected token in JSON";
     createReadStream := fun p =>
       match p with
       | JStr "/data/people.csv" => {| chunks := [[ann; bob; cyd]]; tail := []; failure := None |}
       | _ => {| chunks := []; tail := []; failure := None |}
       end;
     sqlite3 := fun p query =>
       match p with
       | JStr "/data/shop.db" =>
           if String.eqb query "SELECT COUNT(*) AS n FROM customers"
           then OpenOk (inl [[("n", JNum 4)]])
           else OpenOk (inr "SQLITE_ERROR: syntax error")
       | _ => OpenFails "SQLITE_CANTOPEN: unable to open database file" None
       end;
     axios := fun _ =>
       inr {| statusText := JUndefined;
              axios_message := JStr "connect ECONNREFUSED" |} |}.

Definition descriptor (type name path : string) : DataSource.t :=
  {| DataSource.type := type; DataSource.name := name;
     DataSource.config := JObj [("path", JStr path)] |}.

Definition api_descriptor : DataSource.t :=
  {| DataSource.type := "api"; DataSource.name := "shop-api";
     DataSource.config := JObj [("url", JStr "http://shop.test/api")] |}.

(** The file of [lost] exists but cannot be opened as a database (it is
    not readable): the driver reports the open as failed. *)
Definition demo_registry : Registry :=
  <["doc" := descriptor "json" "doc" "/data/doc.json"]>
  (<["people" := descriptor "csv" "people" "/data/people.csv"]>
  (<["shop" := descriptor "sqlite" "shop" "/data/shop.db"]>
  (<["lost" := descriptor "sqlite" "lost" "/data/lost.db"]>
  (<["shop-api" := api_descriptor]> ∅)))).

(** ** Sequences of registrations *)

(** One [register_data_source] call: name, type, config. *)
Definition Registration : Type := string * string * JsVal.

(** The registry after a sequence of calls, whatever their outcomes. *)
Definition register_all (h : Host) (calls : list Registration)
    (reg : Registry) : Registry :=
  fold_left
    (fun reg call =>
       let '(name, type, config) := call in
       snd (registerDataSource h name type config reg))
    calls reg.

(** What the [switch] of [registerDataSource] lets through, in terms of the
    config: a file-backed type needs a truthy [path] at which a file
    exists, the api type a truthy [url], any other type nothing. *)
Definition acceptable (h : Host) (type : string) (config : JsVal) : Prop :=
  if file_backed type then
    Js.is_nullish config = false
    /\ Js.truthy (member h config "path") = true
    /\ existsSync h (member h config "path") = true
  else if String.eqb type "api" then
    Js.is_nullish config = false
    /\ Js.truthy (member h config "url") = true
  else True.

(** A stored descriptor carries the name it is stored under and a config
    its type accepts. *)
Definition registry_ok (h : Host) (reg : Registry) : Prop :=
  forall key ds,
    reg !! key = Some ds ->
    DataSource.name ds = key
    /\ acceptable h (DataSource.type ds) (DataSource.config ds).

(** ** Vocabulary for path segments *)

Definition is_digit (c : ascii) : bool :=
  match Js.digit_val 10 c with
  | Some _ => true
  | None => false
  end.

Fixpoint digits_only (s : string) : bool :=
  match s with
  | EmptyString => true
  | String c rest => is_digit c && digits_only rest
  end.

(** A field name that can stand before a bracket: no dot, no opening
    bracket. *)
Definition bare_field (f : string) : bool :=
  negb (Js.includes "." f) && negb (Js.includes "[" f).

(** The segment [f[i]]. *)
Definition index_segment (f : string) (i : nat) : string :=
  f +:+ "[" +:+ Js.num_to_string (Z.of_nat i) +:+ "]".

(** A second document, [{"users":[{"name":"Ann"},{"name":"Bob"}]}], on a
    host that serves nothing else. *)
Definition users_text : string :=
  "{" +:+ quoted "users" +:+ ":[{" +:+ quoted "name" +:+ ":" +:+ quoted "Ann"
  +:+ "},{" +:+ quoted "name" +:+ ":" +:+ quoted "Bob" +:+ "}]}".

Definition users_doc : JsVal :=
  JObj [("users", JArr [JObj [("name", JStr "Ann")];
                        JObj [("name", JStr "Bob")]])].

Definition users_host : Host :=
  {| inherited := fun _ _ => None;
     existsSync := fun p =>
       match p with
       | JStr s => String.eqb s "/data/users.json"
       | _ => false
       end;
     readFileSync := fun p =>
       match p with
       | JStr s =>
           if String.eqb s "/data/users.json" then inl users_text
           else inr "ENOENT: no such file or directory"
       | _ => inr "The path argument must be of type string"
       end;
     JSON_parse := fun text =>
       if String.eqb text users_text then inl users_doc
       else inr "Unexpected token in JSON";
     createReadStream := fun _ => {| chunks := []; tail := []; failure := None |};
     sqlite3 := fun _ _ =>
       OpenFails "SQLITE_CANTOPEN: unable to open database file" None;
     axios := fun request =>
       if String.eqb (Request.url request) "http://shop.test/api/items"
       then inl {| Response.status := 200;
                   Response.headers := JObj [];
                   Response.data := JArr [] |}
       else inr {| statusText := JStr "Not Found";
                   axios_message := JStr "Request failed with status code 404" |} |}.

Definition users_registry : Registry :=
  <["users" := descriptor "json" "users" "/data/users.json"]>
  (<["shop-api" := api_descriptor]> ∅).

(** A json descriptor whose file is gone since it was registered. *)
Definition stale_registry : Registry :=
  <["gone" := descriptor "json" "gone" "/data/gone.json"]> ∅.

(** ** Vocabulary for CSV rows *)


(** A row as [csv-parser] builds it: every value is a string. *)
Definition string_valued (row : Row) : Prop :=
  forall key value, In (key, value) row -> exists s, value = JStr s.

(** ** Listing and dispatch *)

Module Listing.
Record t : Type := { count : nat; dataSources : list DataSource.t }.
End Listing.

(** [listDataSources]: [Array.from(this.dataSources.values())], each value
    copied field by field.  A [Map] lists its values in insertion order;
    the registry keeps no order, so the list is given here in an order of
    the registry's own and only what does not depend on the order is
    stated about it. *)
Definition listDataSources : M Listing.t :=
  fun reg =>
    let sources :=
      (fun ds =>
         {| DataSource.type := DataSource.type ds;
            DataSource.name := DataSource.name ds;
            DataSource.config := DataSource.config ds |})
        <$> (map_to_list reg).*2 in
    (Resolved {| Listing.count := length sources;
                 Listing.dataSources := sources |},
     reg).

(** The names under [tools] in the answer to [ListToolsRequestSchema]. *)
Definition tool_names : list string :=
  ["register_data_source"; "list_data_sources"; "query_sql"; "fetch_api_data";
   "read_csv"; "read_json"; "create_sample_database"; "transform_data"].

(** The [args] of a tool call, typed as the input schemas of the tools
    declare them: the optional ones may be absent. *)
Module Args.
Record t : Type :=
  { name : string; type : string; config : JsVal;
    sourceName : string; query : string;
    endpoint : string; method : option string; params : JsVal; body : JsVal;
    filter : JsVal; limit : option Z;
    jsonPath : option string;
    path : string;
    operation : string; field : option string }.
End Args.

(** [args.method || 'GET'] *)
Definition method_or_get (method : option string) : string :=
  match method with
  | Some m => if String.eqb m "" then "GET" else m
  | None => "GET"
  end.

(** What a tool call ends in: the result of the method it was dispatched
    to, the error that method threw, the [McpError] of the dispatcher
    itself, or nothing when the method's promise is never settled. *)
Inductive ToolResult (Sample : Type) : Type :=
| RegisteredResult (r : Registered.t)
| ListingResult (r : Listing.t)
| RowsResult (r : Rows.t)
| ApiCallResult (r : ApiResult.t)
| JsonDataResult (r : JsonResult.t)
| SampleResult (r : Sample)
| AckResult (r : Ack.t).

Arguments RegisteredResult {Sample} r.
Arguments ListingResult {Sample} r.
Arguments RowsResult {Sample} r.
Arguments ApiCallResult {Sample} r.
Arguments JsonDataResult {Sample} r.
Arguments SampleResult {Sample} r.
Arguments AckResult {Sample} r.

Inductive ToolOutcome (A : Type) : Type :=
| Answered (a : A)
| Threw (e : Error)
| MethodNotFound (msg : string)
| Unanswered.

Arguments Answered {A} a.
Arguments Threw {A} e.
Arguments MethodNotFound {A} msg.
Arguments Unanswered {A}.

(** [return await this.method(...)] *)
Definition awaited {A B} (wrap : A -> B) (m : M A)
  : Registry -> ToolOutcome B * Registry :=
  fun reg =>
    match m reg with
    | (Resolved a, reg') => (Answered (wrap a), reg')
    | (Rejected e, reg') => (Threw e, reg')
    | (Pending, reg') => (Unanswered, reg')
    end.

Section Dispatcher.
Context (h : Host).

(** [createSampleDatabase] drives the sqlite engine through a script of
    statements and is not embedded; the dispatcher takes it as given.  It
    makes no use of [this.dataSources]. *)
Context {Sample : Type} (createSampleDatabase : string -> Outcome Sample).

Definition handleToolCall (toolName : string) (args : Args.t)
  : Registry -> ToolOutcome (ToolResult Sample) * Registry :=
  if String.eqb toolName "register_data_source" then
    awaited RegisteredResult
      (registerDataSource h (Args.name args) (Args.type args)
         (Args.config args))
  else if String.eqb toolName "list_data_sources" then
    awaited ListingResult listDataSources
  else if String.eqb toolName "query_sql" then
    awaited RowsResult (querySql h (Args.sourceName args) (Args.query args))
  else if String.eqb toolName "fetch_api_data" then
    awaited ApiCallResult
      (fetchApiData h (Args.sourceName args) (Args.endpoint args)
         (method_or_get (Args.method args)) (Args.params args)
         (Args.body args))
  else if String.eqb toolName "read_csv" then
    awaited RowsResult
      (readCsv h (Args.sourceName args) (Args.filter args) (Args.limit args))
  else if String.eqb toolName "read_json" then
    awaited JsonDataResult
      (readJson h (Args.sourceName args) (Args.jsonPath args))
  else if String.eqb toolName "create_sample_database" then
    awaited SampleResult (settle (createSampleDatabase (Args.path args)))
  else if String.eqb toolName "transform_data" then
    awaited AckResult
      (transformData (Args.sourceName args) (Args.operation args)
         (Args.field args))
  else
    fun reg => (MethodNotFound ("Unknown tool: " +:+ toolName), reg).

End Dispatcher.

(** Arguments of a [fetch_api_data] call that names no method. *)
Definition fetch_args (sourceName endpoint : string) (body : JsVal) : Args.t :=
  {| Args.name := ""; Args.type := ""; Args.config := JUndefined;
     Args.sourceName := sourceName; Args.query := "";
     Args.endpoint := endpoint; Args.method := None;
     Args.params := JUndefined; Args.body := body;
     Args.filter := JUndefined; Args.limit := None;
     Args.jsonPath := None; Args.path := "";
     Args.operation := ""; Args.field := None |}.

(** A host whose two CSV files fail: the parser rejects a row of one, the
    other cannot be read. *)
Definition failing_host : Host :=
  {| inherited := fun _ _ => None;
     existsSync := fun _ => true;
     readFileSync := fun _ => inr "EACCES: permission denied";
     JSON_parse := fun _ => inr "Unexpected end of JSON input";
     createReadStream := fun p =>
       match p with
       | JStr "/data/broken.csv" =>
           {| chunks := [[ann]]; tail := [];
              failure := Some (ParserError "Row length does not match headers") |}
       | _ =>
           {| chunks := []; tail := [];
              failure := Some (FileError "EACCES: permission denied") |}
       end;
     sqlite3 := fun _ _ =>
       OpenFails "SQLITE_CANTOPEN: unable to open database file" None;
     axios := fun _ =>
       inr {| statusText := JUndefined;
              axios_message := JStr "connect ECONNREFUSED" |} |}.

Definition failing_registry : Registry :=
  <["broken" := descriptor "csv" "broken" "/data/broken.csv"]>
  (<["locked" := descriptor "csv" "locked" "/data/locked.csv"]> ∅).

(** ** Properties of the registry *)

Lemma has_spec (name : string) (reg : Registry) :
  has name reg = (Resolved (bool_decide (is_Some (reg !! name))), reg).
Proof. reflexivity. Qed.

Lemma has_registered (name : string) (reg : Registry) (ds : DataSource.t) :
  reg !! name = Some ds -> has name reg = (Resolved true, reg).
Proof.
  intros Hds. rewrite has_spec, Hds.
  rewrite bool_decide_eq_true_2; [reflexivity | eauto].
Qed.

Lemma has_fresh (name : string) (reg : Registry) :
  reg !! name = None -> has name reg = (Resolved false, reg).
Proof.
  intros Hnone. rewrite has_spec, Hnone.
  rewrite bool_decide_eq_false_2; [reflexivity | ].
  intros [x Hx]. discriminate.
Qed.

(** A registration that is rejected has stored nothing. *)
Lemma registerDataSource_rejected_unchanged h name type config
    (reg : Registry) e :
  fst (registerDataSource h name type config reg) = Rejected e ->
  snd (registerDataSource h name type config reg) = reg.
Proof.
  unfold registerDataSource, bind, throw, settle, set_source, ret, has.
  destruct (bool_decide (is_Some (reg !! name))); simpl; [reflexivity | ].
  destruct (validate h type config); simpl; [discriminate | reflexivity | reflexivity].
Qed.

(** C3: registering a name that is already registered is rejected with the
    duplicate-name error and the registry is left as it was: the descriptor
    stored first is still there and the size is the same. *)
Theorem registerDataSource_duplicate h name type config
    (reg : Registry) (first : DataSource.t) :
  reg !! name = Some first ->
  let after := registerDataSource h name type config reg in
  fst after = Rejected (AlreadyExists name)
  /\ error_class (AlreadyExists name) = DuplicateNameError
  /\ snd after = reg
  /\ snd after !! name = Some first
  /\ size (snd after) = size reg.
Proof.
  intros Hfirst after. subst after.
  unfold registerDataSource, bind.
  rewrite (has_registered _ _ _ Hfirst). simpl.
  repeat split; assumption.
Qed.

Lemma registerDataSource_duplicate_witness :
  let after :=
    registerDataSource demo_host "doc" "api" JUndefined demo_registry in
  fst after = Rejected (AlreadyExists "doc")
  /\ error_class (AlreadyExists "doc") = DuplicateNameError
  /\ snd after = demo_registry
  /\ snd after !! "doc" = Some (descriptor "json" "doc" "/data/doc.json")
  /\ size (snd after) = size demo_registry.
Proof.
  apply (registerDataSource_duplicate demo_host "doc" "api" JUndefined
           demo_registry (descriptor "json" "doc" "/data/doc.json")).
  vm_compute. reflexivity.
Defined.

Lemma get_object h (v : JsVal) (key : string) :
  Js.is_nullish v = false -> get h v key = Resolved (member h v key).
Proof. intros Hv. unfold get. rewrite Hv. reflexivity. Qed.

(** C4: for an unregistered name and a [config] object, a violated
    precondition makes the registration fail with an invalid-config error
    before anything is stored: the registry, and so its size, is the same
    after the call. *)
Theorem registerDataSource_invalid_config h name type config
    (reg : Registry) :
  reg !! name = None ->
  Js.is_nullish config = false ->
  precondition_violated h type config ->
  let after := registerDataSource h name type config reg in
  (exists e,
      fst after = Rejected e
      /\ error_class e = InvalidConfigError
      /\ (e = PathRequired type
          \/ e = FileNotFound (member h config "path")
          \/ e = UrlRequired))
  /\ snd after = reg
  /\ size (snd after) = size reg.
Proof.
  intros Hfresh Hobj Hbad after. subst after.
  unfold registerDataSource, bind.
  rewrite (has_fresh _ _ Hfresh). simpl.
  unfold settle, validate.
  destruct Hbad as [[Hfile Hpath] | [Hapi Hurl]].
  - rewrite Hfile, (get_object _ _ _ Hobj). simpl.
    destruct (Js.truthy (member h config "path")) eqn:Htruthy; simpl.
    + destruct Hpath as [Habsent | Hmissing].
      * rewrite Habsent in Htruthy. discriminate.
      * rewrite Hmissing. simpl. split; [ | split; reflexivity].
        eexists. repeat split; auto.
    + split; [ | split; reflexivity].
      eexists. repeat split; auto.
  - subst type. simpl. rewrite (get_object _ _ _ Hobj). simpl.
    rewrite Hurl. simpl. split; [ | split; reflexivity].
    eexists. repeat split; auto.
Qed.

Lemma registerDataSource_invalid_config_witness :
  let after :=
    registerDataSource demo_host "new" "csv"
      (JObj [("path", JStr "/data/nowhere.csv")]) demo_registry in
  (exists e,
      fst after = Rejected e
      /\ error_class e = InvalidConfigError
      /\ (e = PathRequired "csv"
          \/ e = FileNotFound
                 (member demo_host (JObj [("path", JStr "/data/nowhere.csv")])
                    "path")
          \/ e = UrlRequired))
  /\ snd after = demo_registry
  /\ size (snd after) = size demo_registry.
Proof.
  apply (registerDataSource_invalid_config demo_host "new" "csv"
           (JObj [("path", JStr "/data/nowhere.csv")]) demo_registry).
  - vm_compute. reflexivity.
  - reflexivity.
  - left. split; [reflexivity | right; reflexivity].
Defined.

(** C9: the type string is not validated.  For an unregistered name and a
    type outside sqlite, api, csv and json, the registration succeeds
    whatever the config is (nothing of it is looked at, no file is looked
    for) and the descriptor is stored with that type. *)
Theorem registerDataSource_unknown_type h name type config
    (reg : Registry) :
  reg !! name = None ->
  type <> "sqlite" -> type <> "api" -> type <> "csv" -> type <> "json" ->
  let stored :=
    {| DataSource.type := type; DataSource.name := name;
       DataSource.config := config |} in
  let after := registerDataSource h name type config reg in
  validate h type config = Resolved tt
  /\ fst after =
       Resolved {| Registered.success := true;
                   Registered.message :=
                     "Data source '" +:+ name +:+ "' registered successfully";
                   Registered.dataSource := stored |}
  /\ snd after = <[name := stored]> reg
  /\ snd after !! name = Some stored
  /\ size (snd after) = S (size reg).
Proof.
  intros Hfresh Hsqlite Hapi Hcsv Hjson stored after. subst after stored.
  assert (Hvalid : validate h type config = Resolved tt).
  { unfold validate, file_backed.
    apply String.eqb_neq in Hsqlite, Hapi, Hcsv, Hjson.
    rewrite Hsqlite, Hapi, Hcsv, Hjson. reflexivity. }
  unfold registerDataSource, bind.
  rewrite (has_fresh _ _ Hfresh). simpl.
  unfold settle. rewrite Hvalid. simpl.
  repeat split.
  - apply lookup_insert_eq.
  - apply map_size_insert_None. exact Hfresh.
Qed.

Lemma registerDataSource_unknown_type_witness :
  let stored :=
    {| DataSource.type := "parquet"; DataSource.name := "lake";
       DataSource.config := JUndefined |} in
  let after :=
    registerDataSource demo_host "lake" "parquet" JUndefined demo_registry in
  validate demo_host "parquet" JUndefined = Resolved tt
  /\ fst after =
       Resolved {| Registered.success := true;
                   Registered.message :=
                     "Data source '" +:+ "lake" +:+ "' registered successfully";
                   Registered.dataSource := stored |}
  /\ snd after = <["lake" := stored]> demo_registry
  /\ snd after !! "lake" = Some stored
  /\ size (snd after) = S (size demo_registry).
Proof.
  apply (registerDataSource_unknown_type demo_host "lake" "parquet" JUndefined
           demo_registry).
  - vm_compute. reflexivity.
  - discriminate.
  - discriminate.
  - discriminate.
  - discriminate.
Defined.

(** ** The transform stub *)

(** C7: [transformData] takes no host: it can neither read a file nor run a
    query.  Whatever the operation and the field, it leaves the registry as
    it was; it resolves with the acknowledgement exactly when the source is
    registered (of any kind) and is rejected exactly when it is not. *)
Theorem transformData_acknowledges (sourceName operation : string)
    (field : option string) (reg : Registry) :
  let after := transformData sourceName operation field reg in
  snd after = reg
  /\ (is_Some (reg !! sourceName) <->
      fst after = Resolved (acknowledgement sourceName operation field))
  /\ (reg !! sourceName = None <->
      fst after = Rejected (SourceNotFound sourceName))
  /\ ((exists e, fst after = Rejected e) <-> reg !! sourceName = None).
Proof.
  unfold transformData, bind, lookup_source, throw, ret, acknowledgement.
  simpl. destruct (reg !! sourceName) as [ds | ] eqn:Hds; simpl.
  - split; [reflexivity | ]. split; [ | split].
    + split; [reflexivity | eauto].
    + split; discriminate.
    + split; [intros [e He]; discriminate | discriminate].
  - split; [reflexivity | ]. split; [ | split].
    + split; [intros [x Hx]; discriminate | discriminate].
    + split; reflexivity.
    + split; [reflexivity | eauto].
Qed.

(** ** Connectors *)

Lemma resolve_found (reg : Registry) sourceName type mismatch ds :
  reg !! sourceName = Some ds ->
  DataSource.type ds = type ->
  resolve sourceName type mismatch reg = (Resolved ds, reg).
Proof.
  intros Hds Htype. unfold resolve, bind, lookup_source, ret. rewrite Hds.
  rewrite Htype, String.eqb_refl. reflexivity.
Qed.

Lemma querySql_registered h (reg : Registry) sourceName query ds :
  reg !! sourceName = Some ds ->
  DataSource.type ds = "sqlite" ->
  Js.is_nullish (DataSource.config ds) = false ->
  querySql h sourceName query reg =
    (settled (querySql_events h (member h (DataSource.config ds) "path") query),
     reg).
Proof.
  intros Hds Htype Hobj. unfold querySql, bind.
  rewrite (resolve_found _ _ _ _ _ Hds Htype).
  unfold settle. rewrite (get_object _ _ _ Hobj). reflexivity.
Qed.

(** C5, as the code has it: on the success path and on the query-failure
    path [db.close] is called before the promise is settled, and a query
    error surfaces with the driver's message.  When the database cannot be
    opened the error surfaces with the driver's message too, but nothing is
    closed before it: no connection was opened.  The registry is never
    touched. *)
Theorem querySql_close_discipline h (reg : Registry) sourceName query ds :
  reg !! sourceName = Some ds ->
  DataSource.type ds = "sqlite" ->
  Js.is_nullish (DataSource.config ds) = false ->
  let path := member h (DataSource.config ds) "path" in
  let events := querySql_events h path query in
  querySql h sourceName query reg = (settled events, reg)
  /\ match sqlite3 h path query with
     | OpenOk (inl rows) =>
         settled events = Resolved (rows_result rows)
         /\ closed_before_settled events = true
     | OpenOk (inr msg) =>
         settled events = Rejected (QueryFailed msg)
         /\ message (QueryFailed msg) = "Query failed: " +:+ msg
         /\ error_class (QueryFailed msg) = ConnectorError
         /\ closed_before_settled events = true
     | OpenFails msg _ =>
         settled events = Rejected (OpenFailed msg)
         /\ message (OpenFailed msg) = "Failed to open database: " +:+ msg
         /\ error_class (OpenFailed msg) = ConnectorError
         /\ closed_before_settled events = false
     end.
Proof.
  intros Hds Htype Hobj path events. split.
  - exact (querySql_registered h reg sourceName query ds Hds Htype Hobj).
  - subst events. unfold querySql_events.
    destruct (sqlite3 h path query) as [msg queued | [rows | msg]]; simpl;
      repeat split; reflexivity.
Qed.

Lemma querySql_close_discipline_witness :
  let query := "SELECT COUNT(*) AS n FROM customers" in
  let events := querySql_events demo_host (JStr "/data/shop.db") query in
  querySql demo_host "shop" query demo_registry = (settled events, demo_registry)
  /\ settled events = Resolved (rows_result [[("n", JNum 4)]])
  /\ closed_before_settled events = true.
Proof.
  exact (querySql_close_discipline demo_host demo_registry "shop"
           "SELECT COUNT(*) AS n FROM customers"
           (descriptor "sqlite" "shop" "/data/shop.db")
           ltac:(vm_compute; reflexivity) eq_refl eq_refl).
Defined.

(** C5 as stated fails on the open-failure path: the promise is rejected
    with the open error and no [db.close] precedes the rejection. *)
Lemma querySql_open_failure_not_closed :
  let events := querySql_events demo_host (JStr "/data/lost.db") "SELECT 1" in
  demo_registry !! "lost" = Some (descriptor "sqlite" "lost" "/data/lost.db")
  /\ fst (querySql demo_host "lost" "SELECT 1" demo_registry) =
       Rejected (OpenFailed "SQLITE_CANTOPEN: unable to open database file")
  /\ events =
       [EvOpen (JStr "/data/lost.db"); EvAll "SELECT 1";
        EvReject (OpenFailed "SQLITE_CANTOPEN: unable to open database file")]
  /\ closed_before_settled events = false.
Proof. vm_compute. repeat split; reflexivity. Qed.

Lemma api_request_built h ds endpoint method params body base :
  get h (DataSource.config ds) "url" = Resolved base ->
  api_request h ds endpoint method params body =
    Resolved
      {| Request.method := method;
         Request.url := Js.to_string base +:+ endpoint;
         Request.headers :=
           if Js.truthy (member h (DataSource.config ds) "headers")
           then member h (DataSource.config ds) "headers" else JObj [];
         Request.params := if Js.truthy params then Some params else None;
         Request.data :=
           if Js.truthy body
              && (String.eqb method "POST" || String.eqb method "PUT")
           then Some body else None |}.
Proof.
  intros Hurl. unfold api_request. rewrite Hurl. simpl.
  unfold get in *. destruct (Js.is_nullish (DataSource.config ds)).
  - discriminate.
  - reflexivity.
Qed.

(** C8, as the code has it: the body is attached exactly when it is truthy
    and the method is POST or PUT (a body that is supplied but falsy --
    [null], [false], [0], the empty string -- is dropped), and the address
    is the url of the descriptor followed by the endpoint, nothing put
    between or removed. *)
Theorem fetchApiData_request h (reg : Registry) sourceName endpoint method
    params body ds base :
  reg !! sourceName = Some ds ->
  DataSource.type ds = "api" ->
  get h (DataSource.config ds) "url" = Resolved base ->
  exists request,
    api_request h ds endpoint method params body = Resolved request
    /\ fetchApiData h sourceName endpoint method params body reg =
         (call_axios h request, reg)
    /\ Request.url request = Js.to_string base +:+ endpoint
    /\ (Request.data request = Some body <->
        Js.truthy body = true /\ (method = "POST" \/ method = "PUT"))
    /\ (Request.data request = None <->
        ~ (Js.truthy body = true /\ (method = "POST" \/ method = "PUT"))).
Proof.
  intros Hds Htype Hurl. eexists. split.
  - exact (api_request_built h ds endpoint method params body _ Hurl).
  - split.
    + unfold fetchApiData, bind.
      rewrite (resolve_found _ _ _ _ _ Hds Htype). unfold settle.
      rewrite (api_request_built h ds endpoint method params body _ Hurl).
      reflexivity.
    + simpl. split; [reflexivity | ].
      destruct (Js.truthy body); simpl.
      * destruct (String.eqb_spec method "POST") as [Hpost | Hpost]; simpl.
        -- split; split; intros H; try reflexivity; try discriminate; auto.
           exfalso. apply H. auto.
        -- destruct (String.eqb_spec method "PUT") as [Hput | Hput]; simpl.
           ++ split; split; intros H; try reflexivity; try discriminate; auto.
              exfalso. apply H. auto.
           ++ split; split; intros H; try reflexivity; try discriminate.
              ** destruct H as [_ [H | H]]; contradiction.
              ** intros [_ [H' | H']]; contradiction.
      * split; split; intros H; try reflexivity; try discriminate.
        -- destruct H as [H _]. discriminate.
        -- intros [H' _]. discriminate.
Qed.

Lemma fetchApiData_request_witness :
  exists request,
    api_request demo_host api_descriptor "/items" "PUT" JUndefined
      (JObj [("sku", JStr "A1")]) = Resolved request
    /\ fetchApiData demo_host "shop-api" "/items" "PUT" JUndefined
         (JObj [("sku", JStr "A1")]) demo_registry =
         (call_axios demo_host request, demo_registry)
    /\ Request.url request = "http://shop.test/api" +:+ "/items"
    /\ (Request.data request = Some (JObj [("sku", JStr "A1")]) <->
        Js.truthy (JObj [("sku", JStr "A1")]) = true
        /\ ("PUT" = "POST" \/ "PUT" = "PUT"))
    /\ (Request.data request = None <->
        ~ (Js.truthy (JObj [("sku", JStr "A1")]) = true
           /\ ("PUT" = "POST" \/ "PUT" = "PUT"))).
Proof.
  exact (fetchApiData_request demo_host demo_registry "shop-api" "/items" "PUT"
           JUndefined (JObj [("sku", JStr "A1")]) api_descriptor
           (JStr "http://shop.test/api")
           ltac:(vm_compute; reflexivity) eq_refl eq_refl).
Defined.

(** C8 as stated fails for a body that is supplied but falsy: a POST with
    the body [false] goes out without [data]. *)
Lemma fetchApiData_falsy_body_dropped :
  JBool false <> JUndefined
  /\ api_request demo_host api_descriptor "/items" "POST" JUndefined
       (JBool false) =
     Resolved {| Request.method := "POST";
                 Request.url := "http://shop.test/api/items";
                 Request.headers := JObj [];
                 Request.params := None;
                 Request.data := None |}.
Proof. split; [discriminate | reflexivity]. Qed.

(** *** Path expressions *)

Lemma split_without c (s : string) :
  Js.includes c s = false -> Js.split c s = [s].
Proof.
  induction s as [ | a s IH]; simpl; [reflexivity | ].
  intros Hno. apply orb_false_iff in Hno as [Ha Hs].
  rewrite Ha, (IH Hs). reflexivity.
Qed.

Lemma split_at_first c (f rest : string) :
  Js.includes c f = false ->
  Js.split c (f +:+ String c rest) = f :: Js.split c rest.
Proof.
  induction f as [ | a f IH]; simpl.
  - intros _. rewrite Ascii.eqb_refl. reflexivity.
  - intros Hno. apply orb_false_iff in Hno as [Ha Hf].
    rewrite Ha, (IH Hf). reflexivity.
Qed.

Lemma eval_part_plain h (result : JsVal) (part : string) :
  plain_field part = true -> eval_part h result part = get h result part.
Proof.
  unfold plain_field, eval_part. intros Hplain.
  apply andb_true_iff in Hplain as [Hplain Hstar].
  apply andb_true_iff in Hplain as [_ Hindex].
  apply negb_true_iff in Hstar, Hindex.
  rewrite Hindex, Hstar. reflexivity.
Qed.

Lemma plain_field_no_dot (part : string) :
  plain_field part = true -> Js.includes "." part = false.
Proof.
  unfold plain_field. intros Hplain.
  apply andb_true_iff in Hplain as [Hplain _].
  apply andb_true_iff in Hplain as [Hdot _].
  apply negb_true_iff in Hdot. exact Hdot.
Qed.





Lemma readJson_registered h (reg : Registry) sourceName jsonPath ds text doc :
  reg !! sourceName = Some ds ->
  DataSource.type ds = "json" ->
  Js.is_nullish (DataSource.config ds) = false ->
  readFileSync h (member h (DataSource.config ds) "path") = inl text ->
  JSON_parse h text = inl doc ->
  readJson h sourceName jsonPath reg =
    (check result <- eval_path h jsonPath doc;
     Resolved {| JsonResult.success := true; JsonResult.data := result |},
     reg).
Proof.
  intros Hds Htype Hobj Hread Hparse. unfold readJson, bind.
  rewrite (resolve_found _ _ _ _ _ Hds Htype). unfold settle.
  rewrite (get_object _ _ _ Hobj). unfold load_json.
  rewrite Hread, Hparse.
  destruct (eval_path h jsonPath doc); reflexivity.
Qed.




(** *** The CSV stream *)

Lemma on_data_records h filter limit (st : CsvState.t) (row : Row) :
  CsvState.records (on_data h filter limit st row) =
    (CsvState.records st ++ List.filter (keeps h filter) [row])%list.
Proof.
  unfold on_data. simpl. destruct (keeps h filter row); simpl.
  - reflexivity.
  - rewrite app_nil_r. reflexivity.
Qed.

Lemma fold_on_data_records h filter limit (rows : list Row) :
  forall st : CsvState.t,
    CsvState.records (fold_left (on_data h filter limit) rows st) =
      (CsvState.records st ++ List.filter (keeps h filter) rows)%list.
Proof.
  induction rows as [ | row rows IH]; intros st.
  - simpl. rewrite app_nil_r. reflexivity.
  - cbn [fold_left]. rewrite IH, on_data_records.
    rewrite <- app_assoc. f_equal.
    simpl. destruct (keeps h filter row); reflexivity.
Qed.

Lemma fold_on_data_quiet h filter limit (rows : list Row) :
  quiet limit ->
  forall st : CsvState.t,
    CsvState.destroyed (fold_left (on_data h filter limit) rows st) =
      CsvState.destroyed st.
Proof.
  intros Hquiet. induction rows as [ | row rows IH]; intros st.
  - reflexivity.
  - cbn [fold_left]. rewrite IH. unfold on_data. simpl.
    rewrite Hquiet. apply orb_false_r.
Qed.

Lemma pump_quiet h filter limit (chunks : list (list Row)) :
  quiet limit ->
  forall st : CsvState.t,
    CsvState.destroyed st = false ->
    CsvState.destroyed (pump h filter limit chunks st) = false
    /\ CsvState.records (pump h filter limit chunks st) =
         (CsvState.records st
          ++ List.filter (keeps h filter) (concat chunks))%list.
Proof.
  intros Hquiet. induction chunks as [ | chunk chunks IH]; intros st Hlive.
  - simpl. rewrite app_nil_r. split; [exact Hlive | reflexivity].
  - cbn [pump]. rewrite Hlive.
    assert (Hnext : CsvState.destroyed
                      (fold_left (on_data h filter limit) chunk st) = false).
    { rewrite (fold_on_data_quiet h filter limit chunk Hquiet). exact Hlive. }
    destruct (IH _ Hnext) as [Hd Hr]. split; [exact Hd | ].
    rewrite Hr, fold_on_data_records. simpl.
    rewrite List.filter_app, app_assoc. reflexivity.
Qed.

(** With a limit that is never reached the whole file is read and the
    promise resolves with every kept row, in file order. *)
Lemma read_stream_quiet h filter limit (feed : Feed) :
  quiet limit ->
  failure feed = None ->
  read_stream h filter limit feed =
    Resolved (rows_result (List.filter (keeps h filter) (all_rows feed))).
Proof.
  intros Hquiet Hfine. unfold read_stream, run_stream. rewrite Hfine.
  destruct (pump_quiet h filter limit (chunks feed) Hquiet
              {| CsvState.records := []; CsvState.destroyed := false |}
              eq_refl) as [Hd Hr].
  rewrite Hd. rewrite fold_on_data_records, Hr. simpl.
  unfold all_rows. rewrite List.filter_app. reflexivity.
Qed.

Lemma quiet_absent : quiet None.
Proof. intros n. reflexivity. Qed.


Lemma readCsv_registered h (reg : Registry) sourceName filter limit ds :
  reg !! sourceName = Some ds ->
  DataSource.type ds = "csv" ->
  Js.is_nullish (DataSource.config ds) = false ->
  readCsv h sourceName filter limit reg =
    (read_stream h filter limit
       (createReadStream h (member h (DataSource.config ds) "path")),
     reg).
Proof.
  intros Hds Htype Hobj. unfold readCsv, bind.
  rewrite (resolve_found _ _ _ _ _ Hds Htype). unfold settle.
  rewrite (get_object _ _ _ Hobj). reflexivity.
Qed.

Lemma keeps_spec h (filter : JsVal) (row : Row) :
  keeps h filter row = true <->
  (Js.truthy filter = true ->
   forall key value,
     In (key, value) (Js.entries filter) ->
     Js.strict_eq (member h (JObj row) key) value = true).
Proof.
  unfold keeps, matches. destruct (Js.truthy filter).
  - rewrite forallb_forall. split.
    + intros Hall _ key value Hin. exact (Hall (key, value) Hin).
    + intros Hall [key value] Hin. exact (Hall eq_refl key value Hin).
  - split; [intros _ Habs; discriminate | reflexivity].
Qed.








(** *** The limit *)

Lemma on_data_destroyed_mono h filter limit (st : CsvState.t) (row : Row) :
  CsvState.destroyed st = true ->
  CsvState.destroyed (on_data h filter limit st row) = true.
Proof. intros Hd. unfold on_data. simpl. rewrite Hd. reflexivity. Qed.






(** C2 on a three-row file that arrives as one chunk, read with limit [1]
    and no filter: the stream is destroyed at the first row, the other two
    rows of the chunk are pushed all the same, and the promise stays
    pending -- where the claim has it resolve with exactly one row. *)
Theorem readCsv_limit_one_of_three :
  let feed := createReadStream demo_host (JStr "/data/people.csv") in
  feed = {| chunks := [[ann; bob; cyd]]; tail := []; failure := None |}
  /\ run_stream demo_host JUndefined (Some 1) feed =
       ({| CsvState.records := [ann; bob; cyd]; CsvState.destroyed := true |},
        false)
  /\ readCsv demo_host "people" JUndefined (Some 1) demo_registry =
       (Pending, demo_registry).
Proof. vm_compute. repeat split; reflexivity. Qed.

(** ** Further properties of the registry *)

Lemma validate_acceptable h (type : string) (config : JsVal) :
  validate h type config = Resolved tt <-> acceptable h type config.
Proof.
  unfold validate, acceptable, get.
  destruct (file_backed type).
  - destruct (Js.is_nullish config); simpl.
    + split; [discriminate | intros [Habs _]; discriminate].
    + destruct (Js.truthy (member h config "path")); simpl.
      * destruct (existsSync h (member h config "path")); simpl.
        -- split; [auto | reflexivity].
        -- split; [discriminate | intros (_ & _ & Habs); discriminate].
      * split; [discriminate | intros (_ & Habs & _); discriminate].
  - destruct (String.eqb type "api").
    + destruct (Js.is_nullish config); simpl.
      * split; [discriminate | intros [Habs _]; discriminate].
      * destruct (Js.truthy (member h config "url")); simpl.
        -- split; [auto | reflexivity].
        -- split; [discriminate | intros [_ Habs]; discriminate].
    + split; [auto | reflexivity].
Qed.

Lemma registerDataSource_fresh h name type config (reg : Registry) :
  reg !! name = None ->
  registerDataSource h name type config reg =
    match validate h type config with
    | Resolved _ =>
        let stored :=
          {| DataSource.type := type; DataSource.name := name;
             DataSource.config := config |} in
        (Resolved {| Registered.success := true;
                     Registered.message :=
                       "Data source '" +:+ name
                       +:+ "' registered successfully";
                     Registered.dataSource := stored |},
         <[name := stored]> reg)
    | Rejected e => (Rejected e, reg)
    | Pending => (Pending, reg)
    end.
Proof.
  intros Hfresh. unfold registerDataSource, bind.
  rewrite (has_fresh _ _ Hfresh). simpl. unfold settle.
  destruct (validate h type config); reflexivity.
Qed.

Lemma registerDataSource_taken h name type config (reg : Registry) ds :
  reg !! name = Some ds ->
  registerDataSource h name type config reg =
    (Rejected (AlreadyExists name), reg).
Proof.
  intros Htaken. unfold registerDataSource, bind.
  rewrite (has_registered _ _ _ Htaken). reflexivity.
Qed.

Lemma validate_settles h (type : string) (config : JsVal) :
  validate h type config <> Pending.
Proof.
  unfold validate, get.
  destruct (file_backed type); [ | destruct (String.eqb type "api")];
    destruct (Js.is_nullish config); simpl; try discriminate.
  - destruct (Js.truthy (member h config "path")); simpl; [ | discriminate].
    destruct (existsSync h (member h config "path")); discriminate.
  - destruct (Js.truthy (member h config "url")); discriminate.
Qed.

(** X1: a registration succeeds exactly when the name is not registered yet
    and the config is acceptable for the type. *)
Theorem registerDataSource_succeeds_iff h name type config (reg : Registry) :
  (exists r, fst (registerDataSource h name type config reg) = Resolved r)
  <-> reg !! name = None /\ acceptable h type config.
Proof.
  destruct (reg !! name) as [ds | ] eqn:Hname.
  - rewrite (registerDataSource_taken h name type config reg ds Hname). simpl.
    split; [intros [r Hr]; discriminate | intros [Hnone _]; discriminate].
  - rewrite (registerDataSource_fresh h name type config reg Hname).
    rewrite <- validate_acceptable.
    destruct (validate h type config) as [[] | e | ]; simpl.
    + split; [auto | eauto].
    + split; [intros [r Hr]; discriminate | intros [_ Habs]; discriminate].
    + split; [intros [r Hr]; discriminate | intros [_ Habs]; discriminate].
Qed.

(** X2: a successful registration stores the descriptor exactly as given
    (type, name and config untouched) under its name, echoes it in the
    result, and adds one entry; every other name reads as before. *)
Theorem registerDataSource_stores_verbatim h name type config
    (reg : Registry) :
  reg !! name = None ->
  acceptable h type config ->
  let stored :=
    {| DataSource.type := type; DataSource.name := name;
       DataSource.config := config |} in
  let after := registerDataSource h name type config reg in
  (exists r, fst after = Resolved r
             /\ Registered.success r = true
             /\ Registered.dataSource r = stored)
  /\ snd after !! name = Some stored
  /\ (forall other, other <> name -> snd after !! other = reg !! other)
  /\ size (snd after) = S (size reg).
Proof.
  intros Hfresh Hok stored after. subst after stored.
  rewrite (registerDataSource_fresh h name type config reg Hfresh).
  apply validate_acceptable in Hok. rewrite Hok. simpl.
  split; [eexists; repeat split | ]. split; [ | split].
  - apply lookup_insert_eq.
  - intros other Hother. apply lookup_insert_ne. congruence.
  - apply map_size_insert_None. exact Hfresh.
Qed.

Lemma registerDataSource_stores_verbatim_witness :
  let config := JObj [("path", JStr "/data/people.csv")] in
  let stored :=
    {| DataSource.type := "csv"; DataSource.name := "crew";
       DataSource.config := config |} in
  let after := registerDataSource demo_host "crew" "csv" config demo_registry in
  (exists r, fst after = Resolved r
             /\ Registered.success r = true
             /\ Registered.dataSource r = stored)
  /\ snd after !! "crew" = Some stored
  /\ (forall other, other <> "crew" ->
                    snd after !! other = demo_registry !! other)
  /\ size (snd after) = S (size demo_registry).
Proof.
  apply (registerDataSource_stores_verbatim demo_host "crew" "csv"
           (JObj [("path", JStr "/data/people.csv")]) demo_registry).
  - vm_compute. reflexivity.
  - vm_compute. repeat split; reflexivity.
Defined.

Lemma registerDataSource_keeps h name type config (reg : Registry) key ds :
  reg !! key = Some ds ->
  snd (registerDataSource h name type config reg) !! key = Some ds.
Proof.
  intros Hkey. destruct (reg !! name) as [old | ] eqn:Hname.
  - rewrite (registerDataSource_taken h name type config reg old Hname).
    exact Hkey.
  - rewrite (registerDataSource_fresh h name type config reg Hname).
    destruct (validate h type config); simpl; try exact Hkey.
    rewrite lookup_insert_ne; [exact Hkey | ]. congruence.
Qed.

(** X3: descriptors are never replaced or removed.  Whatever calls follow,
    and whatever their arguments and outcomes, a descriptor that is in the
    registry stays there unchanged: the first registration of a name
    wins. *)
Theorem register_all_keeps h (calls : list Registration) :
  forall (reg : Registry) key ds,
    reg !! key = Some ds -> register_all h calls reg !! key = Some ds.
Proof.
  induction calls as [ | [[name type] config] calls IH]; intros reg key ds Hkey.
  - exact Hkey.
  - unfold register_all. cbn [fold_left]. apply IH.
    apply registerDataSource_keeps. exact Hkey.
Qed.

Lemma register_all_keeps_witness :
  register_all demo_host
    [("doc", "api", JObj [("url", JStr "http://other.test")]);
     ("doc", "weird", JNull)]
    demo_registry !! "doc"
  = Some (descriptor "json" "doc" "/data/doc.json").
Proof.
  apply (register_all_keeps demo_host _ demo_registry "doc").
  vm_compute. reflexivity.
Defined.

Lemma registerDataSource_ok h name type config (reg : Registry) :
  registry_ok h reg ->
  registry_ok h (snd (registerDataSource h name type config reg)).
Proof.
  intros Hreg. destruct (reg !! name) as [old | ] eqn:Hname.
  - rewrite (registerDataSource_taken h name type config reg old Hname).
    exact Hreg.
  - rewrite (registerDataSource_fresh h name type config reg Hname).
    destruct (validate h type config) as [[] | e | ] eqn:Hvalid; simpl;
      try exact Hreg.
    intros key ds Hkey. destruct (decide (name = key)) as [<- | Hne].
    + rewrite lookup_insert_eq in Hkey. injection Hkey as <-. simpl.
      split; [reflexivity | ]. apply validate_acceptable. exact Hvalid.
    + rewrite lookup_insert_ne in Hkey by exact Hne. exact (Hreg key ds Hkey).
Qed.

Lemma register_all_built_ok h (calls : list Registration) :
  registry_ok h (register_all h calls ∅).
Proof.
  assert (Hgen : forall reg : Registry,
             registry_ok h reg -> registry_ok h (register_all h calls reg)).
  { induction calls as [ | [[name type] config] calls IH]; intros reg Hreg.
    - exact Hreg.
    - unfold register_all. cbn [fold_left]. apply IH.
      apply registerDataSource_ok. exact Hreg. }
  apply Hgen. intros key ds Hkey. rewrite lookup_empty in Hkey. discriminate.
Qed.

(** X4: in a registry built from the empty one by registration calls
    (successful or not), every descriptor carries the name it is stored
    under, every sqlite, csv or json descriptor has a config with a truthy
    path at which a file existed, and every api descriptor has a config
    with a truthy url. *)
Theorem register_all_ok h (calls : list Registration) key ds :
  register_all h calls ∅ !! key = Some ds ->
  DataSource.name ds = key
  /\ (file_backed (DataSource.type ds) = true ->
      Js.is_nullish (DataSource.config ds) = false
      /\ Js.truthy (member h (DataSource.config ds) "path") = true
      /\ existsSync h (member h (DataSource.config ds) "path") = true)
  /\ (DataSource.type ds = "api" ->
      Js.is_nullish (DataSource.config ds) = false
      /\ Js.truthy (member h (DataSource.config ds) "url") = true).
Proof.
  intros Hkey.
  destruct (register_all_built_ok h calls key ds Hkey) as [Hname Hok].
  split; [exact Hname | ]. unfold acceptable in Hok. split.
  - intros Hfile. rewrite Hfile in Hok. exact Hok.
  - intros Hapi. rewrite Hapi in Hok. exact Hok.
Qed.

Lemma register_all_ok_witness :
  let ds :=
    {| DataSource.type := "csv"; DataSource.name := "crew";
       DataSource.config := JObj [("path", JStr "/data/people.csv")] |} in
  DataSource.name ds = "crew"
  /\ (file_backed (DataSource.type ds) = true ->
      Js.is_nullish (DataSource.config ds) = false
      /\ Js.truthy (member demo_host (DataSource.config ds) "path") = true
      /\ existsSync demo_host (member demo_host (DataSource.config ds) "path")
         = true)
  /\ (DataSource.type ds = "api" ->
      Js.is_nullish (DataSource.config ds) = false
      /\ Js.truthy (member demo_host (DataSource.config ds) "url") = true).
Proof.
  apply (register_all_ok demo_host
           [("crew", "csv", JObj [("path", JStr "/data/people.csv")]);
            ("ghost", "csv", JObj [("path", JStr "/data/nowhere.csv")])]
           "crew").
  vm_compute. reflexivity.
Defined.

(** ** Further properties of the connectors *)

Lemma resolve_unknown (reg : Registry) sourceName type mismatch :
  reg !! sourceName = None ->
  resolve sourceName type mismatch reg =
    (Rejected (SourceNotFound sourceName), reg).
Proof.
  intros Hnone. unfold resolve, bind, lookup_source, throw. rewrite Hnone.
  reflexivity.
Qed.

Lemma resolve_mismatch (reg : Registry) sourceName type mismatch ds :
  reg !! sourceName = Some ds ->
  DataSource.type ds <> type ->
  resolve sourceName type mismatch reg = (Rejected (mismatch sourceName), reg).
Proof.
  intros Hds Htype. unfold resolve, bind, lookup_source, throw. rewrite Hds.
  apply String.eqb_neq in Htype. rewrite Htype. reflexivity.
Qed.

Lemma resolve_cases (reg : Registry) sourceName type mismatch :
  (exists ds, resolve sourceName type mismatch reg = (Resolved ds, reg))
  \/ (exists e, resolve sourceName type mismatch reg = (Rejected e, reg)).
Proof.
  unfold resolve, bind, lookup_source, throw, ret.
  destruct (reg !! sourceName) as [ds | ]; simpl; [ | right; eauto].
  destruct (negb (String.eqb (DataSource.type ds) type)); [right | left]; eauto.
Qed.

Lemma querySql_registry h (reg : Registry) sourceName query :
  snd (querySql h sourceName query reg) = reg.
Proof.
  unfold querySql, bind.
  destruct (resolve_cases reg sourceName "sqlite" NotSqlite)
    as [[ds ->] | [e ->]]; [ | reflexivity].
  unfold settle. destruct (get h (DataSource.config ds) "path"); reflexivity.
Qed.

Lemma fetchApiData_registry h (reg : Registry) sourceName endpoint method
    params body :
  snd (fetchApiData h sourceName endpoint method params body reg) = reg.
Proof.
  unfold fetchApiData, bind.
  destruct (resolve_cases reg sourceName "api" NotApi)
    as [[ds ->] | [e ->]]; [ | reflexivity].
  unfold settle.
  destruct (api_request h ds endpoint method params body); reflexivity.
Qed.

Lemma readCsv_registry h (reg : Registry) sourceName filter limit :
  snd (readCsv h sourceName filter limit reg) = reg.
Proof.
  unfold readCsv, bind.
  destruct (resolve_cases reg sourceName "csv" NotCsv)
    as [[ds ->] | [e ->]]; [ | reflexivity].
  unfold settle. destruct (get h (DataSource.config ds) "path"); reflexivity.
Qed.

Lemma readJson_registry h (reg : Registry) sourceName jsonPath :
  snd (readJson h sourceName jsonPath reg) = reg.
Proof.
  unfold readJson, bind.
  destruct (resolve_cases reg sourceName "json" NotJson)
    as [[ds ->] | [e ->]]; [ | reflexivity].
  unfold settle.
  destruct (get h (DataSource.config ds) "path") as [path | e | ];
    try reflexivity.
  destruct (load_json h path) as [data | e | ]; try reflexivity.
  destruct (eval_path h jsonPath data); reflexivity.
Qed.

Lemma transformData_registry (reg : Registry) sourceName operation field :
  snd (transformData sourceName operation field reg) = reg.
Proof.
  unfold transformData, bind, lookup_source, throw, ret.
  destruct (reg !! sourceName); reflexivity.
Qed.

(** X5: only [registerDataSource] writes the registry.  Every connector and
    the transform stage hand back the registry they were given, whatever
    their arguments, whatever the host answers and however they end. *)
Theorem connectors_leave_registry h (reg : Registry) sourceName query endpoint
    method params body filter limit jsonPath operation field :
  snd (querySql h sourceName query reg) = reg
  /\ snd (fetchApiData h sourceName endpoint method params body reg) = reg
  /\ snd (readCsv h sourceName filter limit reg) = reg
  /\ snd (readJson h sourceName jsonPath reg) = reg
  /\ snd (transformData sourceName operation field reg) = reg.
Proof.
  repeat split.
  - apply querySql_registry.
  - apply fetchApiData_registry.
  - apply readCsv_registry.
  - apply readJson_registry.
  - apply transformData_registry.
Qed.

(** X6: a connector called with a name that is not registered is rejected
    with the not-found error of that name before the host is asked
    anything: no file is opened, no query run, no request sent. *)
Theorem connectors_unknown_source h (reg : Registry) sourceName query endpoint
    method params body filter limit jsonPath :
  reg !! sourceName = None ->
  querySql h sourceName query reg = (Rejected (SourceNotFound sourceName), reg)
  /\ fetchApiData h sourceName endpoint method params body reg =
       (Rejected (SourceNotFound sourceName), reg)
  /\ readCsv h sourceName filter limit reg =
       (Rejected (SourceNotFound sourceName), reg)
  /\ readJson h sourceName jsonPath reg =
       (Rejected (SourceNotFound sourceName), reg).
Proof.
  intros Hnone. unfold querySql, fetchApiData, readCsv, readJson, bind.
  rewrite !(resolve_unknown reg sourceName _ _ Hnone). repeat split.
Qed.

Lemma connectors_unknown_source_witness :
  querySql demo_host "ghost" "SELECT 1" demo_registry =
    (Rejected (SourceNotFound "ghost"), demo_registry)
  /\ fetchApiData demo_host "ghost" "/items" "GET" JUndefined JUndefined
       demo_registry = (Rejected (SourceNotFound "ghost"), demo_registry)
  /\ readCsv demo_host "ghost" JUndefined None demo_registry =
       (Rejected (SourceNotFound "ghost"), demo_registry)
  /\ readJson demo_host "ghost" None demo_registry =
       (Rejected (SourceNotFound "ghost"), demo_registry).
Proof.
  apply (connectors_unknown_source demo_host demo_registry "ghost").
  vm_compute. reflexivity.
Defined.

(** X7: a connector called on a descriptor of another type is rejected with
    its own kind error, whatever the descriptor's config is; the type test
    is an exact string comparison. *)
Theorem connectors_kind_mismatch h (reg : Registry) sourceName ds query
    endpoint method params body filter limit jsonPath :
  reg !! sourceName = Some ds ->
  (DataSource.type ds <> "sqlite" ->
   querySql h sourceName query reg = (Rejected (NotSqlite sourceName), reg))
  /\ (DataSource.type ds <> "api" ->
      fetchApiData h sourceName endpoint method params body reg =
        (Rejected (NotApi sourceName), reg))
  /\ (DataSource.type ds <> "csv" ->
      readCsv h sourceName filter limit reg =
        (Rejected (NotCsv sourceName), reg))
  /\ (DataSource.type ds <> "json" ->
      readJson h sourceName jsonPath reg =
        (Rejected (NotJson sourceName), reg)).
Proof.
  intros Hds. unfold querySql, fetchApiData, readCsv, readJson, bind.
  repeat split; intros Htype;
    rewrite (resolve_mismatch reg sourceName _ _ ds Hds Htype); reflexivity.
Qed.

Lemma connectors_kind_mismatch_witness :
  querySql demo_host "doc" "SELECT 1" demo_registry =
    (Rejected (NotSqlite "doc"), demo_registry)
  /\ fetchApiData demo_host "doc" "/items" "GET" JUndefined JUndefined
       demo_registry = (Rejected (NotApi "doc"), demo_registry)
  /\ readCsv demo_host "doc" JUndefined None demo_registry =
       (Rejected (NotCsv "doc"), demo_registry)
  /\ readJson demo_host "people" None demo_registry =
       (Rejected (NotJson "people"), demo_registry).
Proof.
  destruct (connectors_kind_mismatch demo_host demo_registry "doc"
              (descriptor "json" "doc" "/data/doc.json") "SELECT 1" "/items"
              "GET" JUndefined JUndefined JUndefined None None
              ltac:(vm_compute; reflexivity)) as (Hsql & Hapi & Hcsv & _).
  destruct (connectors_kind_mismatch demo_host demo_registry "people"
              (descriptor "csv" "people" "/data/people.csv") "SELECT 1"
              "/items" "GET" JUndefined JUndefined JUndefined None None
              ltac:(vm_compute; reflexivity)) as (_ & _ & _ & Hjson).
  split; [apply Hsql; discriminate | ].
  split; [apply Hapi; discriminate | ].
  split; [apply Hcsv; discriminate | apply Hjson; discriminate].
Defined.



(** ** Further properties of path expressions *)

Lemma split_nonempty c (s : string) : Js.split c s <> [].
Proof.
  destruct s as [ | a s]; simpl; [discriminate | ].
  destruct (Ascii.eqb a c); [discriminate | ].
  destruct (Js.split c s); discriminate.
Qed.

Lemma split_app c (s t : string) :
  Js.split c (s +:+ String c t) = (Js.split c s ++ Js.split c t)%list.
Proof.
  induction s as [ | a s IH]; simpl.
  - rewrite Ascii.eqb_refl. reflexivity.
  - rewrite IH. destruct (Ascii.eqb a c); [reflexivity | ].
    destruct (Js.split c s) eqn:Hsplit; [ | reflexivity].
    destruct (split_nonempty c s Hsplit).
Qed.

Lemma eval_parts_app h (front back : list string) :
  forall result,
    eval_parts h (front ++ back) result =
      (check middle <- eval_parts h front result; eval_parts h back middle).
Proof.
  induction front as [ | part front IH]; intros result; simpl.
  - reflexivity.
  - destruct (eval_part h result part) as [next | e | ]; simpl;
      [apply IH | reflexivity | reflexivity].
Qed.

Lemma eval_path_rooted h (p : string) (doc : JsVal) :
  eval_path h (Some ("$." +:+ p)) doc = eval_parts h (Js.split "." p) doc.
Proof. reflexivity. Qed.

(** X9: a path is evaluated segment by segment: evaluating [$.p.q] is
    evaluating [$.p] and then [$.q] on what it gave, errors included, for
    all path texts [p] and [q]. *)
Theorem eval_path_sequence h (p q : string) (doc : JsVal) :
  eval_path h (Some ("$." +:+ p +:+ "." +:+ q)) doc =
    (check middle <- eval_path h (Some ("$." +:+ p)) doc;
     eval_path h (Some ("$." +:+ q)) middle).
Proof.
  change ("$." +:+ p +:+ "." +:+ q) with ("$." +:+ (p +:+ String "." q)).
  rewrite !eval_path_rooted, split_app, eval_parts_app.
  destruct (eval_parts h (Js.split "." p) doc); reflexivity.
Qed.

Lemma eval_part_wildcard_twice h (result : JsVal) :
  (check once <- eval_part h result "*"; eval_part h once "*") =
    eval_part h result "*".
Proof.
  destruct result; reflexivity.
Qed.

(** X10: the wildcard is idempotent: [$.p.*.*] gives what [$.p.*] gives,
    for every path text [p] and every document. *)
Theorem eval_path_wildcard_idempotent h (p : string) (doc : JsVal) :
  eval_path h (Some ("$." +:+ p +:+ ".*.*")) doc =
    eval_path h (Some ("$." +:+ p +:+ ".*")) doc.
Proof.
  change ("$." +:+ p +:+ ".*.*") with ("$." +:+ (p +:+ String "." "*.*")).
  change ("$." +:+ p +:+ ".*") with ("$." +:+ (p +:+ String "." "*")).
  rewrite !eval_path_rooted, !split_app, !eval_parts_app.
  destruct (eval_parts h (Js.split "." p) doc) as [middle | e | ];
    [ | reflexivity | reflexivity].
  cbn [obind].
  change (Js.split "." "*.*") with ["*"; "*"].
  change (Js.split "." "*") with ["*"].
  cbn [eval_parts].
  pose proof (eval_part_wildcard_twice h middle) as Htwice.
  destruct (eval_part h middle "*") as [once | e | ]; cbn [obind] in *;
    [ | reflexivity | reflexivity].
  destruct (eval_part h once "*"); cbn [obind]; congruence.
Qed.

(** *** Decimal indices *)

Lemma pretty_N_char_digit (d : N) :
  (d < 10)%N -> Js.digit_val 10 (pretty_N_char d) = Some (Z.of_N d).
Proof.
  intros Hd.
  assert (Hcases : (d = 0 \/ d = 1 \/ d = 2 \/ d = 3 \/ d = 4 \/ d = 5
                    \/ d = 6 \/ d = 7 \/ d = 8 \/ d = 9)%N) by lia.
  repeat (destruct Hcases as [-> | Hcases]; [reflexivity | ]).
  subst d. reflexivity.
Qed.

Lemma parse_digits_go (x : N) :
  forall s acc,
    (0 < x)%N ->
    default 0 acc = 0 ->
    Js.parse_digits 10 (pretty_N_go x s) acc =
      Js.parse_digits 10 s (Some (Z.of_N x)).
Proof.
  induction (N.lt_wf_0 x) as [x _ IH]. intros s acc Hpos Hacc.
  rewrite pretty_N_go_step by exact Hpos.
  assert (Hmod : (x `mod` 10 < 10)%N) by (apply N.mod_lt; lia).
  pose proof (N.div_mod x 10 ltac:(lia)) as Hdiv.
  destruct (N.eq_dec (x `div` 10)%N 0%N) as [Hzero | Hmore].
  - rewrite Hzero, pretty_N_go_0. cbn [Js.parse_digits].
    rewrite (pretty_N_char_digit _ Hmod), Hacc. do 2 f_equal.
    clear IH. lia.
  - assert (Hless : (x `div` 10 < x)%N)
      by (apply N.div_lt; [exact Hpos | reflexivity]).
    assert (Hrest : (0 < x `div` 10)%N)
      by (apply N.neq_0_lt_0; exact Hmore).
    rewrite (IH _ Hless _ _ Hrest Hacc).
    cbn [Js.parse_digits]. rewrite (pretty_N_char_digit _ Hmod).
    cbn [default]. unfold id. do 2 f_equal. clear IH. lia.
Qed.

Lemma num_to_string_nat (i : nat) :
  Js.num_to_string (Z.of_nat i) = pretty (N.of_nat i).
Proof. destruct i; reflexivity. Qed.

Lemma parse_digits_index (i : nat) :
  Js.parse_digits 10 (Js.num_to_string (Z.of_nat i)) None =
    Some (Z.of_nat i).
Proof.
  rewrite num_to_string_nat. unfold pretty, pretty_N.
  destruct (decide (N.of_nat i = 0%N)) as [Hzero | Hpos].
  - replace i with 0%nat by lia. reflexivity.
  - rewrite parse_digits_go by (reflexivity || lia).
    cbn [Js.parse_digits]. f_equal. lia.
Qed.

Lemma pretty_N_char_is_digit (d : N) :
  (d < 10)%N -> is_digit (pretty_N_char d) = true.
Proof.
  intros Hd. unfold is_digit. rewrite (pretty_N_char_digit d Hd). reflexivity.
Qed.

Lemma digits_only_go (x : N) :
  forall s, digits_only (pretty_N_go x s) = digits_only s.
Proof.
  induction (N.lt_wf_0 x) as [x _ IH]. intros s.
  destruct (N.eq_dec x 0%N) as [-> | Hpos]; [reflexivity | ].
  rewrite pretty_N_go_step by lia.
  rewrite IH by (apply N.div_lt; lia). cbn [digits_only].
  rewrite pretty_N_char_is_digit by (apply N.mod_lt; lia). reflexivity.
Qed.

Lemma digits_only_index (i : nat) :
  digits_only (Js.num_to_string (Z.of_nat i)) = true.
Proof.
  rewrite num_to_string_nat. unfold pretty, pretty_N.
  destruct (decide (N.of_nat i = 0%N)); [reflexivity | ].
  apply digits_only_go.
Qed.

Lemma digits_only_excludes (c : ascii) (s : string) :
  is_digit c = false -> digits_only s = true -> Js.includes c s = false.
Proof.
  intros Hc. induction s as [ | a s IH]; simpl; [reflexivity | ].
  intros Hs. apply andb_true_iff in Hs as [Ha Hs].
  rewrite (IH Hs), orb_false_r. apply Ascii.eqb_neq. congruence.
Qed.

Lemma digits_only_not_length (s : string) :
  digits_only s = true -> String.eqb s "length" = false.
Proof.
  intros Hs. apply String.eqb_neq. intros ->. discriminate.
Qed.

Ltac digit_cases c H :=
  destruct c as [[] [] [] [] [] [] [] []]; vm_compute in H;
  try discriminate H.

Lemma is_digit_not_space (c : ascii) :
  is_digit c = true -> Js.is_space c = false.
Proof. intros Hc. digit_cases c Hc; vm_compute; reflexivity. Qed.

(** On a string of decimal digits [parseInt] reads the whole string. *)
Lemma parseInt_digits (s : string) :
  digits_only s = true -> Js.parseInt s = Js.parse_digits 10 s None.
Proof.
  destruct s as [ | c rest]; [reflexivity | ].
  cbn [digits_only]. intros Hs. apply andb_true_iff in Hs as [Hc Hrest].
  unfold Js.parseInt. cbn [Js.skip_spaces].
  rewrite (is_digit_not_space c Hc).
  assert (Hdone : forall s' : string,
             match Js.parse_digits 10 s' None with
             | Some n => Some (if false then - n else n)
             | None => None
             end = Js.parse_digits 10 s' None).
  { intros s'. destruct (Js.parse_digits 10 s' None); reflexivity. }
  digit_cases c Hc; try apply Hdone.
  destruct rest as [ | c' rest]; [apply Hdone | ].
  cbn [digits_only] in Hrest. apply andb_true_iff in Hrest as [Hc' _].
  digit_cases c' Hc'; apply Hdone.
Qed.

Lemma array_index_canonical (i : nat) :
  Js.array_index (Js.num_to_string (Z.of_nat i)) = Some i.
Proof.
  unfold Js.array_index. rewrite parse_digits_index, String.eqb_refl.
  f_equal. lia.
Qed.

Lemma includes_app c (s t : string) :
  Js.includes c (s +:+ t) = Js.includes c s || Js.includes c t.
Proof.
  induction s as [ | a s IH]; simpl; [reflexivity | ].
  rewrite IH, orb_assoc. reflexivity.
Qed.

Lemma remove_first_last c (s : string) :
  Js.includes c s = false -> Js.remove_first c (s +:+ String c "") = s.
Proof.
  induction s as [ | a s IH]; simpl.
  - intros _. rewrite Ascii.eqb_refl. reflexivity.
  - intros Hno. apply orb_false_iff in Hno as [Ha Hs].
    rewrite Ha, (IH Hs). reflexivity.
Qed.

Lemma own_property_index (items : list JsVal) (i : nat) :
  Js.own_property (JArr items) (Js.num_to_string (Z.of_nat i)) =
    nth_error items i.
Proof.
  unfold Js.own_property.
  rewrite (digits_only_not_length _ (digits_only_index i)).
  rewrite array_index_canonical. reflexivity.
Qed.

(** The segment [f[i]] reads field [f] and then the property named by the
    decimal form of [i]. *)
Lemma eval_part_index h (result : JsVal) (f : string) (i : nat) :
  bare_field f = true ->
  eval_part h result (index_segment f i) =
    (check inner <- get h result f;
     get h inner (Js.num_to_string (Z.of_nat i))).
Proof.
  unfold bare_field, index_segment. intros Hf.
  apply andb_true_iff in Hf as [_ Hopen]. apply negb_true_iff in Hopen.
  set (digits := Js.num_to_string (Z.of_nat i)).
  assert (Hdigits : digits_only digits = true) by apply digits_only_index.
  unfold eval_part.
  replace (Js.includes "[" (f +:+ "[" +:+ digits +:+ "]")) with true.
  2:{ rewrite includes_app. simpl. symmetry. apply orb_true_r. }
  replace (Js.includes "]" (f +:+ "[" +:+ digits +:+ "]")) with true.
  2:{ rewrite !includes_app. simpl. symmetry.
      rewrite !orb_true_r. reflexivity. }
  cbn [andb].
  change (f +:+ "[" +:+ digits +:+ "]")
    with (f +:+ String "[" (digits +:+ "]")).
  rewrite (split_at_first _ _ _ Hopen).
  rewrite split_without.
  2:{ rewrite includes_app. simpl.
      rewrite (digits_only_excludes "[" digits eq_refl Hdigits). reflexivity. }
  change (digits +:+ "]") with (digits +:+ String "]" "").
  rewrite remove_first_last
    by exact (digits_only_excludes "]" digits eq_refl Hdigits).
  rewrite (parseInt_digits _ Hdigits). subst digits.
  rewrite parse_digits_index. reflexivity.
Qed.

(** X11: index access reads the array in place.  For a registered json
    source whose document has an array under field [f], the path [$.f[i]],
    with [i] below 2^53 written in decimal, gives the [i]-th element when
    there is one; past the end it gives what the array inherits under that
    key, [undefined] when nothing. *)
Theorem readJson_index h (reg : Registry) sourceName ds text doc
    (f : string) (items : list JsVal) (i : nat) :
  reg !! sourceName = Some ds ->
  DataSource.type ds = "json" ->
  Js.is_nullish (DataSource.config ds) = false ->
  readFileSync h (member h (DataSource.config ds) "path") = inl text ->
  JSON_parse h text = inl doc ->
  bare_field f = true ->
  get h doc f = Resolved (JArr items) ->
  Z.of_nat i < 2 ^ 53 ->
  readJson h sourceName (Some ("$." +:+ index_segment f i)) reg =
    (Resolved
       {| JsonResult.success := true;
          JsonResult.data :=
            match nth_error items i with
            | Some item => item
            | None =>
                default JUndefined
                  (inherited h (JArr items) (Js.num_to_string (Z.of_nat i)))
            end |},
     reg).
Proof.
  intros Hds Htype Hobj Hread Hparse Hf Hfield _.
  rewrite (readJson_registered h reg sourceName _ ds text doc
             Hds Htype Hobj Hread Hparse).
  rewrite eval_path_rooted. rewrite split_without.
  2:{ unfold index_segment. rewrite !includes_app.
      pose proof Hf as Hbare. unfold bare_field in Hbare.
      apply andb_true_iff in Hbare as [Hdot _].
      apply negb_true_iff in Hdot. rewrite Hdot. simpl.
      rewrite (digits_only_excludes "." _ eq_refl (digits_only_index i)).
      reflexivity. }
  cbn [eval_parts]. rewrite (eval_part_index h doc f i Hf), Hfield.
  cbn [obind]. unfold get. cbn [Js.is_nullish]. unfold member.
  rewrite own_property_index. reflexivity.
Qed.

Lemma readJson_index_witness :
  readJson users_host "users" (Some "$.users[1]") users_registry =
    (Resolved {| JsonResult.success := true;
                 JsonResult.data := JObj [("name", JStr "Bob")] |},
     users_registry).
Proof.
  exact (readJson_index users_host users_registry "users"
           (descriptor "json" "users" "/data/users.json") users_text users_doc
           "users" [JObj [("name", JStr "Ann")]; JObj [("name", JStr "Bob")]]
           1%nat
           ltac:(vm_compute; reflexivity) eq_refl eq_refl eq_refl eq_refl
           eq_refl eq_refl eq_refl).
Defined.

(** *** Bracketed wildcard, absent path, root prefix, unreadable files *)

Lemma append_regroup (s t u : string) : (s +:+ t) +:+ u = s +:+ t +:+ u.
Proof.
  induction s as [ | a s IH]; [reflexivity | ].
  change (String a ((s +:+ t) +:+ u) = String a (s +:+ t +:+ u)).
  rewrite IH. reflexivity.
Qed.

Lemma eval_part_bracket_star h (result : JsVal) (f : string) :
  bare_field f = true ->
  eval_part h result (f +:+ "[*]") =
    (check inner <- get h result f; get h inner "NaN").
Proof.
  unfold bare_field. intros Hf.
  apply andb_true_iff in Hf as [_ Hopen]. apply negb_true_iff in Hopen.
  unfold eval_part.
  replace (Js.includes "[" (f +:+ "[*]")) with true
    by (rewrite includes_app; simpl; symmetry; apply orb_true_r).
  replace (Js.includes "]" (f +:+ "[*]")) with true
    by (rewrite includes_app; simpl; symmetry; apply orb_true_r).
  cbn [andb].
  change (f +:+ "[*]") with (f +:+ String "[" "*]").
  rewrite (split_at_first _ _ _ Hopen). reflexivity.
Qed.

(** X12: a wildcard written in brackets is not a wildcard.  The segment
    [f[*]] reads the property named [NaN] of field [f], so for a registered
    json source the path [$.f[*].g] -- the shape of the example in the
    tool's own description, [$.users[*].name] -- is rejected with a
    [TypeError] whenever field [f] is missing or has no property of that
    name, as every array has none. *)
Theorem readJson_bracket_wildcard h (reg : Registry) sourceName ds text doc
    (f g : string) (inner : JsVal) :
  reg !! sourceName = Some ds ->
  DataSource.type ds = "json" ->
  Js.is_nullish (DataSource.config ds) = false ->
  readFileSync h (member h (DataSource.config ds) "path") = inl text ->
  JSON_parse h text = inl doc ->
  bare_field f = true ->
  plain_field g = true ->
  get h doc f = Resolved inner ->
  get h inner "NaN" = Resolved JUndefined \/ Js.is_nullish inner = true ->
  exists msg,
    readJson h sourceName (Some ("$." +:+ f +:+ "[*]." +:+ g)) reg =
      (Rejected (TypeError msg), reg).
Proof.
  intros Hds Htype Hobj Hread Hparse Hf Hg Hfield Hnan.
  rewrite (readJson_registered h reg sourceName _ ds text doc
             Hds Htype Hobj Hread Hparse).
  replace (f +:+ "[*]." +:+ g) with ((f +:+ "[*]") +:+ String "." g)
    by (rewrite append_regroup; reflexivity).
  rewrite eval_path_rooted, split_app, eval_parts_app.
  rewrite split_without.
  2:{ rewrite includes_app. unfold bare_field in Hf.
      apply andb_true_iff in Hf as [Hdot _]. apply negb_true_iff in Hdot.
      rewrite Hdot. reflexivity. }
  rewrite (split_without _ _ (plain_field_no_dot _ Hg)).
  cbn [eval_parts]. rewrite (eval_part_bracket_star h doc f Hf), Hfield.
  cbn [obind]. destruct Hnan as [Hnan | Hnull].
  - rewrite Hnan. cbn [obind]. rewrite (eval_part_plain _ _ _ Hg).
    eexists. reflexivity.
  - unfold get at 1. rewrite Hnull. eexists. reflexivity.
Qed.

Lemma readJson_bracket_wildcard_witness :
  exists msg,
    readJson users_host "users" (Some "$.users[*].name") users_registry =
      (Rejected (TypeError msg), users_registry).
Proof.
  exact (readJson_bracket_wildcard users_host users_registry "users"
           (descriptor "json" "users" "/data/users.json") users_text users_doc
           "users" "name"
           (JArr [JObj [("name", JStr "Ann")]; JObj [("name", JStr "Bob")]])
           ltac:(vm_compute; reflexivity) eq_refl eq_refl eq_refl eq_refl
           eq_refl eq_refl eq_refl (or_introl eq_refl)).
Defined.

(** X13: without a path, and with the empty string as path, [readJson]
    returns the whole parsed document. *)
Theorem readJson_whole_document h (reg : Registry) sourceName ds text doc :
  reg !! sourceName = Some ds ->
  DataSource.type ds = "json" ->
  Js.is_nullish (DataSource.config ds) = false ->
  readFileSync h (member h (DataSource.config ds) "path") = inl text ->
  JSON_parse h text = inl doc ->
  readJson h sourceName None reg =
    (Resolved {| JsonResult.success := true; JsonResult.data := doc |}, reg)
  /\ readJson h sourceName (Some "") reg =
       (Resolved {| JsonResult.success := true; JsonResult.data := doc |}, reg).
Proof.
  intros Hds Htype Hobj Hread Hparse.
  rewrite !(readJson_registered h reg sourceName _ ds text doc
              Hds Htype Hobj Hread Hparse).
  split; reflexivity.
Qed.

Lemma readJson_whole_document_witness :
  readJson demo_host "doc" None demo_registry =
    (Resolved {| JsonResult.success := true; JsonResult.data := sample_doc |},
     demo_registry)
  /\ readJson demo_host "doc" (Some "") demo_registry =
       (Resolved {| JsonResult.success := true;
                    JsonResult.data := sample_doc |},
        demo_registry).
Proof.
  exact (readJson_whole_document demo_host demo_registry "doc"
           (descriptor "json" "doc" "/data/doc.json") sample_text sample_doc
           ltac:(vm_compute; reflexivity) eq_refl eq_refl eq_refl eq_refl).
Defined.

Lemma eval_path_unrooted h (p : string) (doc : JsVal) :
  p <> "" ->
  Js.strip_root p = p ->
  eval_path h (Some ("$." +:+ p)) doc = eval_path h (Some p) doc.
Proof.
  intros Hne Hstrip. rewrite eval_path_rooted. unfold eval_path.
  apply String.eqb_neq in Hne. rewrite Hne, Hstrip. reflexivity.
Qed.

(** X14: the root prefix is optional: a non-empty path that does not start
    with [$.] is read exactly as the same path with [$.] put in front, on
    every registry and host. *)
Theorem readJson_root_optional h (reg : Registry) sourceName (p : string) :
  p <> "" ->
  Js.strip_root p = p ->
  readJson h sourceName (Some ("$." +:+ p)) reg =
    readJson h sourceName (Some p) reg.
Proof.
  intros Hne Hstrip. unfold readJson, bind.
  destruct (resolve sourceName "json" NotJson reg) as [[ds | e | ] reg'];
    try reflexivity.
  unfold settle.
  destruct (get h (DataSource.config ds) "path") as [path | e | ];
    try reflexivity.
  destruct (load_json h path) as [data | e | ]; try reflexivity.
  rewrite (eval_path_unrooted h p data Hne Hstrip). reflexivity.
Qed.

Lemma readJson_root_optional_witness :
  readJson demo_host "doc" (Some "$.a.b[1]") demo_registry =
    readJson demo_host "doc" (Some "a.b[1]") demo_registry.
Proof.
  exact (readJson_root_optional demo_host demo_registry "doc" "a.b[1]"
           ltac:(discriminate) eq_refl).
Defined.

(** X15: when the file of a registered json source cannot be read, or its
    text does not parse, [readJson] is rejected with the error the runtime
    reports, message unchanged, whatever the path asked for. *)
Theorem readJson_unreadable h (reg : Registry) sourceName ds jsonPath :
  reg !! sourceName = Some ds ->
  DataSource.type ds = "json" ->
  Js.is_nullish (DataSource.config ds) = false ->
  let path := member h (DataSource.config ds) "path" in
  (forall msg,
      readFileSync h path = inr msg ->
      readJson h sourceName jsonPath reg = (Rejected (FsError msg), reg)
      /\ message (FsError msg) = msg)
  /\ (forall text msg,
         readFileSync h path = inl text ->
         JSON_parse h text = inr msg ->
         readJson h sourceName jsonPath reg = (Rejected (SyntaxError msg), reg)
         /\ message (SyntaxError msg) = msg).
Proof.
  intros Hds Htype Hobj path. subst path.
  assert (Hrun : readJson h sourceName jsonPath reg =
                   (check data <-
                      load_json h (member h (DataSource.config ds) "path");
                    check result <- eval_path h jsonPath data;
                    Resolved {| JsonResult.success := true;
                                JsonResult.data := result |},
                    reg)).
  { unfold readJson, bind.
    rewrite (resolve_found _ _ _ _ _ Hds Htype). unfold settle.
    rewrite (get_object _ _ _ Hobj).
    destruct (load_json h _) as [data | e | ]; try reflexivity.
    cbn [obind]. destruct (eval_path h jsonPath data); reflexivity. }
  split.
  - intros msg Hread. rewrite Hrun. unfold load_json. rewrite Hread.
    split; reflexivity.
  - intros text msg Hread Hparse. rewrite Hrun. unfold load_json.
    rewrite Hread, Hparse. split; reflexivity.
Qed.

Lemma readJson_unreadable_witness :
  readJson demo_host "gone" (Some "$.a") stale_registry =
    (Rejected (FsError "ENOENT: no such file or directory"), stale_registry).
Proof.
  exact (proj1 (proj1
    (readJson_unreadable demo_host stale_registry "gone"
       (descriptor "json" "gone" "/data/gone.json") (Some "$.a")
       ltac:(vm_compute; reflexivity) eq_refl eq_refl)
    "ENOENT: no such file or directory" eq_refl)).
Defined.

(** ** Further properties of the CSV stream *)







Lemma fold_on_data_destroyed h filter limit (rows : list Row) :
  forall st : CsvState.t,
    CsvState.destroyed st = true ->
    CsvState.destroyed (fold_left (on_data h filter limit) rows st) = true.
Proof.
  induction rows as [ | row rows IH]; intros st Hdead; [exact Hdead | ].
  cbn [fold_left]. apply IH. apply on_data_destroyed_mono. exact Hdead.
Qed.

Lemma pump_destroyed h filter limit (chunks : list (list Row)) :
  forall st : CsvState.t,
    CsvState.destroyed st = true ->
    CsvState.destroyed (pump h filter limit chunks st) = true.
Proof.
  intros st Hdead. destruct chunks; cbn [pump]; [exact Hdead | ].
  rewrite Hdead. exact Hdead.
Qed.

Lemma pump_negative_limit h filter (k : Z) (chunks : list (list Row)) :
  k < 0 ->
  concat chunks <> [] ->
  forall st : CsvState.t,
    CsvState.destroyed (pump h filter (Some k) chunks st) = true.
Proof.
  intros Hk. induction chunks as [ | chunk chunks IH]; intros Hrows st.
  - contradiction.
  - cbn [pump]. destruct (CsvState.destroyed st) eqn:Hst; [exact Hst | ].
    destruct chunk as [ | row chunk].
    + apply IH. exact Hrows.
    + apply pump_destroyed. cbn [fold_left]. apply fold_on_data_destroyed.
      unfold on_data, limit_reached. cbn [CsvState.destroyed].
      replace (k =? 0) with false by (symmetry; apply Z.eqb_neq; lia).
      replace (k <=? _) with true by (symmetry; apply Z.leb_le; lia).
      apply orb_true_r.
Qed.

(** X17: a negative limit is reached before any row is kept: for a
    registered csv source whose chunks hold at least one row, [readCsv]
    with a limit below zero never settles, whatever the filter keeps. *)
Theorem readCsv_negative_limit h (reg : Registry) sourceName ds filter
    (k : Z) :
  reg !! sourceName = Some ds ->
  DataSource.type ds = "csv" ->
  Js.is_nullish (DataSource.config ds) = false ->
  k < 0 ->
  concat (chunks (createReadStream h (member h (DataSource.config ds) "path")))
    <> [] ->
  readCsv h sourceName filter (Some k) reg = (Pending, reg).
Proof.
  intros Hds Htype Hobj Hk Hrows.
  rewrite (readCsv_registered h reg sourceName filter _ ds Hds Htype Hobj).
  unfold read_stream, run_stream.
  rewrite (pump_negative_limit h filter k _ Hk Hrows).
  cbv beta iota zeta.
  rewrite (pump_negative_limit h filter k _ Hk Hrows). reflexivity.
Qed.

Lemma readCsv_negative_limit_witness :
  readCsv demo_host "people" (JObj [("city", JStr "Paris")]) (Some (-1))
    demo_registry = (Pending, demo_registry).
Proof.
  apply (readCsv_negative_limit demo_host demo_registry "people"
           (descriptor "csv" "people" "/data/people.csv")
           (JObj [("city", JStr "Paris")]) (-1)
           ltac:(vm_compute; reflexivity) eq_refl eq_refl ltac:(lia)).
  vm_compute. discriminate.
Defined.

Lemma assoc_in (key : string) (row : Row) (value : JsVal) :
  Js.assoc key row = Some value -> In (key, value) row.
Proof.
  induction row as [ | [k v] row IH]; simpl; [discriminate | ].
  destruct (String.eqb_spec k key) as [-> | Hne].
  - intros [= ->]. left. reflexivity.
  - intros Hrest. right. exact (IH Hrest).
Qed.

Lemma keeps_number_entry h (props : list (string * JsVal)) (row : Row)
    (key : string) (n : Z) :
  In (key, JNum n) props ->
  string_valued row ->
  inherited h (JObj row) key = None ->
  keeps h (JObj props) row = false.
Proof.
  intros Hentry Hrow Hproto.
  destruct (keeps h (JObj props) row) eqn:Hkeeps; [exfalso | reflexivity].
  pose proof (proj1 (keeps_spec h (JObj props) row) Hkeeps eq_refl key
                (JNum n) Hentry) as Hmatch.
  clear Hkeeps. rename Hmatch into Hkeeps.
  unfold member in Hkeeps. cbn [Js.own_property] in Hkeeps.
  destruct (Js.assoc key row) as [value | ] eqn:Hown.
  - destruct (Hrow key value (assoc_in _ _ _ Hown)) as [s ->]. discriminate.
  - rewrite Hproto in Hkeeps. discriminate.
Qed.

(** X18: filter values are compared with [===] and the values of a parsed
    row are strings, so a filter entry whose value is a number matches no
    row: for a registered csv source whose file is read without failure
    and whose rows are string-valued, such a filter makes [readCsv] resolve
    with no rows at all. *)
Theorem readCsv_number_filter_matches_nothing h (reg : Registry) sourceName ds
    (props : list (string * JsVal)) (key : string) (n : Z) :
  reg !! sourceName = Some ds ->
  DataSource.type ds = "csv" ->
  Js.is_nullish (DataSource.config ds) = false ->
  In (key, JNum n) props ->
  let feed := createReadStream h (member h (DataSource.config ds) "path") in
  failure feed = None ->
  (forall row, In row (all_rows feed) ->
               string_valued row /\ inherited h (JObj row) key = None) ->
  readCsv h sourceName (JObj props) None reg =
    (Resolved {| Rows.success := true; Rows.rowCount := 0; Rows.data := [] |},
     reg).
Proof.
  intros Hds Htype Hobj Hentry feed Hfine Hrows.
  rewrite (readCsv_registered h reg sourceName _ None ds Hds Htype Hobj).
  fold feed. rewrite (read_stream_quiet h _ None feed quiet_absent Hfine).
  replace (List.filter (keeps h (JObj props)) (all_rows feed)) with (@nil Row);
    [reflexivity | ].
  symmetry. induction (all_rows feed) as [ | row rows IH]; [reflexivity | ].
  cbn [List.filter].
  destruct (Hrows row (or_introl eq_refl)) as [Hstrings Hproto].
  rewrite (keeps_number_entry h props row key n Hentry Hstrings Hproto).
  apply IH. intros row' Hin. apply Hrows. right. exact Hin.
Qed.

Lemma people_rows_string_valued :
  forall row,
    In row (all_rows (createReadStream demo_host (JStr "/data/people.csv"))) ->
    string_valued row /\ inherited demo_host (JObj row) "name" = None.
Proof.
  intros row Hin. split; [ | reflexivity].
  cbn in Hin. intros key value Hentry.
  destruct Hin as [<- | [<- | [<- | []]]];
    cbn in Hentry; destruct Hentry as [[= <- <-] | [[= <- <-] | []]]; eauto.
Qed.

Lemma readCsv_number_filter_matches_nothing_witness :
  readCsv demo_host "people" (JObj [("name", JNum 7)]) None demo_registry =
    (Resolved {| Rows.success := true; Rows.rowCount := 0; Rows.data := [] |},
     demo_registry).
Proof.
  exact (readCsv_number_filter_matches_nothing demo_host demo_registry
           "people" (descriptor "csv" "people" "/data/people.csv")
           [("name", JNum 7)] "name" 7
           ltac:(vm_compute; reflexivity) eq_refl eq_refl
           (or_introl eq_refl) eq_refl people_rows_string_valued).
Defined.

(** ** Further properties of the API connector *)

Lemma fetchApiData_registered h (reg : Registry) sourceName endpoint method
    params body ds :
  reg !! sourceName = Some ds ->
  DataSource.type ds = "api" ->
  fetchApiData h sourceName endpoint method params body reg =
    (check request <- api_request h ds endpoint method params body;
     call_axios h request,
     reg).
Proof.
  intros Hds Htype. unfold fetchApiData, bind.
  rewrite (resolve_found _ _ _ _ _ Hds Htype). unfold settle.
  destruct (api_request h ds endpoint method params body); reflexivity.
Qed.

(** X19: what [fetchApiData] makes of the answer.  For a registered api
    source, a response is handed back with its status, headers and data
    untouched; a failure is rejected with "API request failed: " followed
    by the status text of the response when there is a non-empty one, and
    by the message of the error otherwise. *)
Theorem fetchApiData_answer h (reg : Registry) sourceName endpoint method
    params body ds request :
  reg !! sourceName = Some ds ->
  DataSource.type ds = "api" ->
  api_request h ds endpoint method params body = Resolved request ->
  match axios h request with
  | inl response =>
      fetchApiData h sourceName endpoint method params body reg =
        (Resolved {| ApiResult.success := true;
                     ApiResult.status := Response.status response;
                     ApiResult.headers := Response.headers response;
                     ApiResult.data := Response.data response |},
         reg)
  | inr error =>
      exists text,
        fetchApiData h sourceName endpoint method params body reg =
          (Rejected (ApiRequestFailed text), reg)
        /\ message (ApiRequestFailed text) = "API request failed: " +:+ text
        /\ (Js.truthy (statusText error) = true ->
            text = Js.to_string (statusText error))
        /\ (Js.truthy (statusText error) = false ->
            text = Js.to_string (axios_message error))
  end.
Proof.
  intros Hds Htype Hrequest.
  rewrite (fetchApiData_registered h reg sourceName endpoint method params
             body ds Hds Htype), Hrequest.
  cbn [obind]. unfold call_axios.
  destruct (axios h request) as [response | error]; [reflexivity | ].
  eexists. split; [reflexivity | ]. split; [reflexivity | ].
  destruct (Js.truthy (statusText error));
    split; intros Htruthy; try discriminate; reflexivity.
Qed.

Lemma fetchApiData_answer_witness :
  fetchApiData users_host "shop-api" "/items" "GET" JUndefined JUndefined
    users_registry =
    (Resolved {| ApiResult.success := true; ApiResult.status := 200;
                 ApiResult.headers := JObj []; ApiResult.data := JArr [] |},
     users_registry)
  /\ exists text,
       fetchApiData users_host "shop-api" "/nothing" "GET" JUndefined
         JUndefined users_registry =
         (Rejected (ApiRequestFailed text), users_registry)
       /\ text = "Not Found".
Proof.
  split.
  - exact (fetchApiData_answer users_host users_registry "shop-api" "/items"
             "GET" JUndefined JUndefined api_descriptor _
             ltac:(vm_compute; reflexivity) eq_refl eq_refl).
  - destruct (fetchApiData_answer users_host users_registry "shop-api"
                "/nothing" "GET" JUndefined JUndefined api_descriptor _
                ltac:(vm_compute; reflexivity) eq_refl eq_refl)
      as (text & Hrun & _ & Hstatus & _).
    exists text. split; [exact Hrun | exact (Hstatus eq_refl)].
Defined.

(** X20: the rest of the request.  For a registered api source with a
    config object, the method goes out as given, the headers are those of
    the descriptor or, when it has none, the empty object -- no per-call
    header can be added -- and the query parameters are attached exactly
    when [params] is truthy. *)
Theorem fetchApiData_headers_params h ds endpoint method params body :
  Js.is_nullish (DataSource.config ds) = false ->
  exists request,
    api_request h ds endpoint method params body = Resolved request
    /\ Request.method request = method
    /\ (Js.truthy (member h (DataSource.config ds) "headers") = true ->
        Request.headers request = member h (DataSource.config ds) "headers")
    /\ (Js.truthy (member h (DataSource.config ds) "headers") = false ->
        Request.headers request = JObj [])
    /\ (Request.params request = Some params <-> Js.truthy params = true)
    /\ (Request.params request = None <-> Js.truthy params = false).
Proof.
  intros Hobj. eexists. split.
  - apply api_request_built. apply get_object. exact Hobj.
  - cbn. split; [reflexivity | ].
    destruct (Js.truthy (member h (DataSource.config ds) "headers"));
      destruct (Js.truthy params);
      repeat split; intros; try reflexivity; try discriminate.
Qed.

Lemma fetchApiData_headers_params_witness :
  exists request,
    api_request demo_host api_descriptor "/items" "DELETE"
      (JObj [("page", JNum 2)]) JUndefined = Resolved request
    /\ Request.method request = "DELETE"
    /\ Request.headers request = JObj []
    /\ Request.params request = Some (JObj [("page", JNum 2)]).
Proof.
  destruct (fetchApiData_headers_params demo_host api_descriptor "/items"
              "DELETE" (JObj [("page", JNum 2)]) JUndefined eq_refl)
    as (request & Hbuilt & Hmethod & _ & Hdefault & Hparams & _).
  exists request. split; [exact Hbuilt | ]. split; [exact Hmethod | ].
  split; [exact (Hdefault eq_refl) | exact (proj2 Hparams eq_refl)].
Defined.

(** ** Listing and dispatch *)

Lemma listDataSources_values (reg : Registry) :
  listDataSources reg =
    (Resolved {| Listing.count := size reg;
                 Listing.dataSources := (map_to_list reg).*2 |},
     reg).
Proof.
  unfold listDataSources. cbv zeta.
  rewrite (list_fmap_ext _ id (map_to_list reg).*2).
  - rewrite list_fmap_id, !length_fmap, length_map_to_list. reflexivity.
  - intros i [type name config] _. reflexivity.
Qed.

(** X21: for a registry built from the empty one by registration calls,
    [listDataSources] changes nothing and counts the registered names; the
    descriptors it lists are exactly the stored ones, each under its own
    name, and no name is listed twice. *)
Theorem listDataSources_complete h (calls : list Registration) :
  let reg := register_all h calls ∅ in
  exists listing,
    listDataSources reg = (Resolved listing, reg)
    /\ Listing.count listing = size reg
    /\ Listing.count listing = length (Listing.dataSources listing)
    /\ (forall ds,
           ds ∈ Listing.dataSources listing
           <-> reg !! DataSource.name ds = Some ds)
    /\ NoDup (DataSource.name <$> Listing.dataSources listing).
Proof.
  intros reg. eexists. split; [apply listDataSources_values | ].
  cbn [Listing.count Listing.dataSources].
  pose proof (register_all_built_ok h calls) as Hok. fold reg in Hok.
  split; [reflexivity | ]. split; [ | split].
  - rewrite length_fmap, length_map_to_list. reflexivity.
  - intros ds. rewrite list_elem_of_fmap. split.
    + intros [[key ds'] [-> Hin]]. apply elem_of_map_to_list in Hin.
      cbn [snd]. destruct (Hok key ds' Hin) as [-> _]. exact Hin.
    + intros Hds. exists (DataSource.name ds, ds). split; [reflexivity | ].
      apply elem_of_map_to_list. exact Hds.
  - rewrite <- list_fmap_compose.
    rewrite (list_fmap_ext _ fst (map_to_list reg)).
    + apply NoDup_fst_map_to_list.
    + intros i [key ds] Hi. cbn.
      apply list_elem_of_lookup_2 in Hi. apply elem_of_map_to_list in Hi.
      destruct (Hok key ds Hi) as [Hname _]. exact Hname.
Qed.

Lemma awaited_known {A B} (wrap : A -> B) (m : M A) (reg : Registry) msg :
  fst (awaited wrap m reg) <> MethodNotFound msg.
Proof. unfold awaited. destruct (m reg) as [[a | e | ] reg']; discriminate. Qed.

Lemma awaited_registry {A B} (wrap : A -> B) (m : M A) (reg : Registry) :
  snd (awaited wrap m reg) = snd (m reg).
Proof. unfold awaited. destruct (m reg) as [[a | e | ] reg']; reflexivity. Qed.

Ltac dispatch_case toolName literal :=
  destruct (String.eqb_spec toolName literal) as [-> | ?].

Ltac in_list := cbn; repeat (first [left; reflexivity | right]).

Ltac advertised_case :=
  split; [split | ];
  [ intros [msg Hm]; destruct (awaited_known _ _ _ _ Hm)
  | intros Hn; destruct Hn; in_list
  | intros Hn; destruct Hn; in_list ].

(** X22: the dispatcher and the advertised tool list agree.  A call is
    answered with the method-not-found error exactly when its tool name is
    none of the eight advertised names; the error carries "Unknown tool: "
    and the name, and the registry is untouched. *)
Theorem handleToolCall_unknown_tool h {Sample : Type}
    (createSampleDatabase : string -> Outcome Sample)
    (toolName : string) (args : Args.t) (reg : Registry) :
  ((exists msg,
       fst (handleToolCall h createSampleDatabase toolName args reg) =
         MethodNotFound msg)
   <-> ~ In toolName tool_names)
  /\ (~ In toolName tool_names ->
      handleToolCall h createSampleDatabase toolName args reg =
        (MethodNotFound ("Unknown tool: " +:+ toolName), reg)).
Proof.
  unfold handleToolCall, tool_names.
  dispatch_case toolName "register_data_source"; [advertised_case | ].
  dispatch_case toolName "list_data_sources"; [advertised_case | ].
  dispatch_case toolName "query_sql"; [advertised_case | ].
  dispatch_case toolName "fetch_api_data"; [advertised_case | ].
  dispatch_case toolName "read_csv"; [advertised_case | ].
  dispatch_case toolName "read_json"; [advertised_case | ].
  dispatch_case toolName "create_sample_database"; [advertised_case | ].
  dispatch_case toolName "transform_data"; [advertised_case | ].
  split; [split | ].
  - intros _. cbn. intuition congruence.
  - intros _. eexists. reflexivity.
  - intros _. reflexivity.
Qed.

(** X23: through the dispatcher too, only [register_data_source] can change
    the registry: a call of any other tool name, advertised or not, leaves
    it as it was, whatever the arguments and the outcome. *)
Theorem handleToolCall_only_register_writes h {Sample : Type}
    (createSampleDatabase : string -> Outcome Sample)
    (toolName : string) (args : Args.t) (reg : Registry) :
  toolName <> "register_data_source" ->
  snd (handleToolCall h createSampleDatabase toolName args reg) = reg.
Proof.
  intros Hother. unfold handleToolCall.
  apply String.eqb_neq in Hother. rewrite Hother.
  repeat match goal with
         | |- context [String.eqb toolName ?literal] =>
             destruct (String.eqb toolName literal)
         end;
    try rewrite awaited_registry;
    first [ reflexivity
          | apply querySql_registry
          | apply fetchApiData_registry
          | apply readCsv_registry
          | apply readJson_registry
          | apply transformData_registry ].
Qed.

Lemma handleToolCall_only_register_writes_witness :
  snd (handleToolCall demo_host (fun _ => @Pending unit) "read_json"
         (fetch_args "doc" "" JUndefined) demo_registry) = demo_registry.
Proof.
  apply (handleToolCall_only_register_writes demo_host (fun _ => @Pending unit)
           "read_json" (fetch_args "doc" "" JUndefined) demo_registry).
  discriminate.
Defined.

(** X24: a [fetch_api_data] call that names no method goes out as a GET,
    and a GET carries no body: for a registered api source, whatever body
    the call supplies is left out of the request. *)
Theorem handleToolCall_default_method h {Sample : Type}
    (createSampleDatabase : string -> Outcome Sample)
    (reg : Registry) (args : Args.t) ds :
  Args.method args = None \/ Args.method args = Some "" ->
  reg !! Args.sourceName args = Some ds ->
  DataSource.type ds = "api" ->
  Js.is_nullish (DataSource.config ds) = false ->
  exists request,
    api_request h ds (Args.endpoint args) "GET" (Args.params args)
      (Args.body args) = Resolved request
    /\ Request.method request = "GET"
    /\ Request.data request = None
    /\ handleToolCall h createSampleDatabase "fetch_api_data" args reg =
         awaited ApiCallResult (settle (call_axios h request)) reg.
Proof.
  intros Hmethod Hds Htype Hobj.
  assert (Hget : method_or_get (Args.method args) = "GET")
    by (destruct Hmethod as [-> | ->]; reflexivity).
  eexists. split.
  - apply api_request_built. apply get_object. exact Hobj.
  - cbn [Request.method Request.data]. split; [reflexivity | ].
    split; [rewrite andb_false_r; reflexivity | ].
    unfold handleToolCall. cbn [String.eqb Ascii.eqb Bool.eqb].
    rewrite Hget. unfold awaited.
    rewrite (fetchApiData_registered h reg _ _ _ _ _ ds Hds Htype).
    rewrite (api_request_built h ds _ "GET" _ _ _
               (get_object h _ "url" Hobj)).
    reflexivity.
Qed.

Lemma handleToolCall_default_method_witness :
  exists request,
    api_request users_host api_descriptor "/items" "GET" JUndefined
      (JObj [("sku", JStr "A1")]) = Resolved request
    /\ Request.method request = "GET"
    /\ Request.data request = None
    /\ handleToolCall users_host (fun _ => @Pending unit) "fetch_api_data"
         (fetch_args "shop-api" "/items" (JObj [("sku", JStr "A1")]))
         users_registry =
         awaited ApiCallResult (settle (call_axios users_host request))
           users_registry.
Proof.
  exact (handleToolCall_default_method users_host (fun _ => @Pending unit)
           users_registry
           (fetch_args "shop-api" "/items" (JObj [("sku", JStr "A1")]))
           api_descriptor (or_introl eq_refl)
           ltac:(vm_compute; reflexivity) eq_refl eq_refl).
Defined.

(** ** Filters that filter nothing, and connectors on built registries *)

Lemma on_data_ext h (f1 f2 : JsVal) limit :
  (forall row, keeps h f1 row = keeps h f2 row) ->
  forall st row, on_data h f1 limit st row = on_data h f2 limit st row.
Proof. intros Hsame st row. unfold on_data. rewrite Hsame. reflexivity. Qed.

Lemma fold_on_data_ext h (f1 f2 : JsVal) limit (rows : list Row) :
  (forall row, keeps h f1 row = keeps h f2 row) ->
  forall st,
    fold_left (on_data h f1 limit) rows st =
      fold_left (on_data h f2 limit) rows st.
Proof.
  intros Hsame. induction rows as [ | row rows IH]; intros st; [reflexivity | ].
  cbn [fold_left]. rewrite (on_data_ext h f1 f2 limit Hsame). apply IH.
Qed.

Lemma pump_ext h (f1 f2 : JsVal) limit (chunks : list (list Row)) :
  (forall row, keeps h f1 row = keeps h f2 row) ->
  forall st, pump h f1 limit chunks st = pump h f2 limit chunks st.
Proof.
  intros Hsame. induction chunks as [ | chunk chunks IH]; intros st;
    [reflexivity | ].
  cbn [pump]. rewrite (fold_on_data_ext h f1 f2 limit chunk Hsame), IH.
  reflexivity.
Qed.

Lemma read_stream_ext h (f1 f2 : JsVal) limit (feed : Feed) :
  (forall row, keeps h f1 row = keeps h f2 row) ->
  read_stream h f1 limit feed = read_stream h f2 limit feed.
Proof.
  intros Hsame. unfold read_stream, run_stream.
  rewrite (pump_ext h f1 f2 limit (chunks feed) Hsame).
  rewrite (fold_on_data_ext h f1 f2 limit (tail feed) Hsame). reflexivity.
Qed.

(** X25: a filter with nothing in it filters nothing.  The empty object,
    and every falsy filter ([null], [false], [0], the empty string), give
    [readCsv] exactly the outcome it has with no filter, on every registry
    and for every limit. *)
Theorem readCsv_vacuous_filter h (reg : Registry) sourceName filter limit :
  filter = JObj [] \/ Js.truthy filter = false ->
  readCsv h sourceName filter limit reg =
    readCsv h sourceName JUndefined limit reg.
Proof.
  intros Hvacuous.
  assert (Hsame : forall row, keeps h filter row = keeps h JUndefined row).
  { intros row. destruct Hvacuous as [-> | Hfalsy]; [reflexivity | ].
    unfold keeps. rewrite Hfalsy. reflexivity. }
  unfold readCsv, bind.
  destruct (resolve sourceName "csv" NotCsv reg) as [[ds | e | ] reg'];
    try reflexivity.
  unfold settle.
  destruct (get h (DataSource.config ds) "path"); try reflexivity.
  rewrite (read_stream_ext h filter JUndefined limit _ Hsame). reflexivity.
Qed.

Lemma readCsv_vacuous_filter_witness :
  readCsv demo_host "people" (JObj []) (Some 0) demo_registry =
    readCsv demo_host "people" JUndefined (Some 0) demo_registry.
Proof.
  exact (readCsv_vacuous_filter demo_host demo_registry "people" (JObj [])
           (Some 0) (or_introl eq_refl)).
Defined.



(** ** Failures of the CSV stream *)

(** X27: what [readCsv] makes of a failing stream when no limit stops it
    first.  For a registered csv source read without a limit or with limit
    [0], an error of the parser rejects the promise with "Failed to read
    CSV: " followed by the parser's message; an error of the file stream
    itself reaches no handler, so the promise is never settled. *)
Theorem readCsv_stream_failure h (reg : Registry) sourceName ds filter limit :
  reg !! sourceName = Some ds ->
  DataSource.type ds = "csv" ->
  Js.is_nullish (DataSource.config ds) = false ->
  quiet limit ->
  let feed := createReadStream h (member h (DataSource.config ds) "path") in
  (forall msg,
      failure feed = Some (ParserError msg) ->
      readCsv h sourceName filter limit reg =
        (Rejected (CsvReadFailed msg), reg)
      /\ message (CsvReadFailed msg) = "Failed to read CSV: " +:+ msg)
  /\ (forall msg,
         failure feed = Some (FileError msg) ->
         readCsv h sourceName filter limit reg = (Pending, reg)).
Proof.
  intros Hds Htype Hobj Hquiet feed.
  rewrite (readCsv_registered h reg sourceName filter limit ds Hds Htype Hobj).
  fold feed. unfold read_stream, run_stream.
  destruct (pump_quiet h filter limit (chunks feed) Hquiet
              {| CsvState.records := []; CsvState.destroyed := false |}
              eq_refl) as [Hlive _].
  rewrite Hlive. split; intros msg Hfail; rewrite Hfail; cbv beta iota zeta;
    rewrite Hlive; [split | ]; reflexivity.
Qed.

Lemma readCsv_stream_failure_witness :
  readCsv failing_host "broken" JUndefined None failing_registry =
    (Rejected (CsvReadFailed "Row length does not match headers"),
     failing_registry)
  /\ readCsv failing_host "locked" JUndefined None failing_registry =
       (Pending, failing_registry).
Proof.
  split.
  - exact (proj1 (proj1
      (readCsv_stream_failure failing_host failing_registry "broken"
         (descriptor "csv" "broken" "/data/broken.csv") JUndefined None
         ltac:(vm_compute; reflexivity) eq_refl eq_refl quiet_absent)
      "Row length does not match headers" eq_refl)).
  - exact (proj2
      (readCsv_stream_failure failing_host failing_registry "locked"
         (descriptor "csv" "locked" "/data/locked.csv") JUndefined None
         ltac:(vm_compute; reflexivity) eq_refl eq_refl quiet_absent)
      "EACCES: permission denied" eq_refl).
Defined.
